(** * LMS backend: enrollment lifecycle, admission control, review aggregates

    A shallow embedding of the enrollment router (the second module of
    [src/server.js]), of the Mongoose schemas it runs on
    ([src/models/Enrollment.js], [src/unnamed/part_002] for courses,
    [src/models/Review.js]) and of the static [Review.getAverageRating],
    followed by the properties the specification states about them.

    The router and the schemas do not agree on the names of the paths.  The
    router filters on [userId] and [courseId], writes [timeSpent],
    [currentLesson], [cancelledAt] and [certificates], populates [courseId]
    and reads [isActive], [maxEnrollments], [prerequisites],
    [enrollmentCount], [averageRating] and [totalReviews] of a course; the
    Enrollment schema declares [student] and [course] and none of the
    others, and the Course schema declares none of the six.  The embedding
    keeps both as they are written: a handler names the paths the source
    names, a schema lists the paths the source declares, and what Mongoose
    does with a path the schema lacks decides the result.

    Modelling conventions.
    - A MongoDB collection is the list of its documents in natural
      (insertion) order.  Stored documents have the shape the schema gives
      them: they were written through the model.
    - Schemas are strict (the default, which no schema under [src/]
      changes): a path that is not in the schema is not written and reads
      as [undefined] on a document.  Whether such a path is removed from a
      query filter ([strictQuery]) and whether populating it throws
      ([strictPopulate]) is set outside [src/], with defaults that differ
      between the major versions of the library: the handlers take both
      settings as a parameter.
    - JavaScript [Number] is an integer ([Z]) for counters, progress and
      clock readings and an exact rational ([Q]) for ratings and their mean.
    - [new Date()] and [Date.now()] read a wall clock that the handler does
      not control: a handler receives [now : nat -> Time], where [now k] is
      the k-th possible reading made while it serves one request. *)

From Stdlib Require Import ZArith QArith List Lia Bool DecimalString.
From stdpp Require Import gmap strings.
Import ListNotations.
Local Open Scope Z_scope.

Definition ObjectId := string.
Definition Time := Z.

(** [`${n}`] for an integral JavaScript number. *)
Definition decimal (n : Z) : string := NilZero.string_of_int (Z.to_int n).

(** ** Values, schemas and what Mongoose does with them *)

Record Options := mkOptions {
  strictQuery : bool;
  strictPopulate : bool
}.

(** A JavaScript value as the router hands it to Mongoose or reads it off a
    document.  An identifier that Mongoose casts to an ObjectId is an
    [objectId], whether the request spelled it as a string or not; a [text]
    is any other string. *)
#[warnings="-register-all"]
Inductive value :=
| undefined
| null
| boolean (b : bool)
| number (n : Z)
| rational (q : Q)
| text (s : string)
| objectId (id : ObjectId)
| date (t : Time)
| array (items : list value)
| object (fields : list (string * value)).

(** JavaScript truthiness. *)
Definition truthy (v : value) : bool :=
  match v with
  | undefined | null => false
  | boolean b => b
  | number n => negb (n =? 0)
  | rational q => negb (Qeq_bool q 0)
  | text s => negb (String.eqb s "")
  | objectId _ | date _ | array _ | object _ => true
  end.

(** What a handler's [catch] can receive. *)
Inductive Error :=
| Thrown (message : string)
| CastError (path : string)
| ValidationError (paths : list string)
| StrictPopulateError (path : string)
| TypeError (property : string)
| DuplicateKeyError.

Definition Result (A : Type) : Type := (Error + A)%type.

(** An identifier as a request carries it: a string that the check the
    route applies to it ([isMongoId] on the body of POST /,
    [ObjectId.isValid] and the cast of the query filter elsewhere) accepts
    as the ObjectId [id], or a string it refuses. *)
Inductive IdParam :=
| Id (id : ObjectId)
| NotAnId (raw : string).

Definition idValue (p : IdParam) : value :=
  match p with
  | Id id => objectId id
  | NotAnId raw => text raw
  end.

#[warnings="-register-all"]
Inductive SchemaType :=
| TString
| TNumber
| TBoolean
| TDate
| TObjectId (ref : string)
| TArray (item : SchemaType)
| TEmbedded (paths : list (string * SchemaType)).

(** One path of a schema, with the validators the schemas under [src/]
    use. *)
Record SchemaPath := mkSchemaPath {
  type : SchemaType;
  required : bool;
  enum : list string;
  min : option Z;
  max : option Z
}.

Definition plain (t : SchemaType) : SchemaPath := mkSchemaPath t false [] None None.

Definition Schema := list (string * SchemaPath).

Fixpoint pathOf (schema : Schema) (path : string) : option SchemaPath :=
  match schema with
  | [] => None
  | (p, s) :: rest => if String.eqb p path then Some s else pathOf rest path
  end.

(** The type a path has in a schema; [_id] is there without being
    declared. *)
Definition typeOf (schema : Schema) (path : string) : option SchemaType :=
  if String.eqb path "_id" then Some (TObjectId "")
  else type <$> pathOf schema path.

Definition declared (schema : Schema) (path : string) : bool :=
  match typeOf schema path with
  | Some _ => true
  | None => false
  end.

(** The value kept under a key of a document. *)
Fixpoint assoc (path : string) (entries : list (string * value)) : value :=
  match entries with
  | [] => undefined
  | (p, v) :: rest => if String.eqb p path then v else assoc path rest
  end.

Fixpoint setAssoc (path : string) (v : value) (entries : list (string * value))
    : list (string * value) :=
  match entries with
  | [] => [(path, v)]
  | (p, w) :: rest =>
      if String.eqb p path then (p, v) :: rest
      else (p, w) :: setAssoc path v rest
  end.

(** Casting a value to the type of a path, for the kinds of value the
    routes send: a value of the path's own kind is kept, [null] is kept for
    every type, and a string that spells no ObjectId is a cast error for
    an ObjectId path.  The routes send no value of another kind to a path
    of a schema (a numeric string for a Number path is read as its number
    before, see [intValue]); such a value is a cast error here. *)
Fixpoint castTo (t : SchemaType) (path : string) (v : value) {struct t}
    : Result value :=
  match v with
  | null => inr null
  | _ =>
      match t with
      | TString =>
          match v with text _ => inr v | _ => inl (CastError path) end
      | TNumber =>
          match v with
          | number _ | rational _ => inr v
          | _ => inl (CastError path)
          end
      | TBoolean =>
          match v with boolean _ => inr v | _ => inl (CastError path) end
      | TDate =>
          match v with date _ => inr v | _ => inl (CastError path) end
      | TObjectId _ =>
          match v with objectId _ => inr v | _ => inl (CastError path) end
      | TArray item =>
          match v with
          | array items =>
              match
                (fix each (l : list value) : Result (list value) :=
                   match l with
                   | [] => inr []
                   | x :: rest =>
                       match castTo item path x with
                       | inl err => inl err
                       | inr x' =>
                           match each rest with
                           | inl err => inl err
                           | inr rest' => inr (x' :: rest')
                           end
                       end
                   end) items
              with
              | inl err => inl err
              | inr items' => inr (array items')
              end
          | _ => inl (CastError path)
          end
      | TEmbedded _ =>
          match v with object _ => inr v | _ => inl (CastError path) end
      end
  end.

(** *** Query filters *)

Inductive Condition :=
| Is (v : value)
| In' (vs : list value).

Definition Filter := list (string * Condition).

Definition castCondition (t : SchemaType) (path : string) (c : Condition)
    : Result Condition :=
  match c with
  | Is v =>
      match castTo t path v with
      | inl err => inl err
      | inr v' => inr (Is v')
      end
  | In' vs =>
      match
        (fix each (l : list value) : Result (list value) :=
           match l with
           | [] => inr []
           | x :: rest =>
               match castTo t path x with
               | inl err => inl err
               | inr x' =>
                   match each rest with
                   | inl err => inl err
                   | inr rest' => inr (x' :: rest')
                   end
               end
           end) vs
      with
      | inl err => inl err
      | inr vs' => inr (In' vs')
      end
  end.

(** What Mongoose sends to the store for a filter: the conditions on
    schema paths, cast to the type of the path, and, unless [strictQuery]
    removes them, the conditions on the other keys as they are. *)
Fixpoint castFilter (o : Options) (schema : Schema) (filter : Filter)
    : Result Filter :=
  match filter with
  | [] => inr []
  | (path, c) :: rest =>
      match typeOf schema path with
      | Some t =>
          match castCondition t path c with
          | inl err => inl err
          | inr c' =>
              match castFilter o schema rest with
              | inl err => inl err
              | inr rest' => inr ((path, c') :: rest')
              end
          end
      | None =>
          if strictQuery o then castFilter o schema rest
          else
            match castFilter o schema rest with
            | inl err => inl err
            | inr rest' => inr ((path, c) :: rest')
            end
      end
  end.

(** Equality of two scalars in the store; a missing field equals [null]. *)
Definition same (v w : value) : bool :=
  match v, w with
  | (undefined | null), (undefined | null) => true
  | boolean a, boolean b => Bool.eqb a b
  | number a, number b => a =? b
  | rational a, rational b => Qeq_bool a b
  | text a, text b => String.eqb a b
  | objectId a, objectId b => String.eqb a b
  | date a, date b => a =? b
  | _, _ => false
  end.

(** Whether the value a document has under a key meets a condition; an
    array field meets [Is w] when it holds [w]. *)
Definition holds (v : value) (c : Condition) : bool :=
  match c with
  | Is w =>
      match v with
      | array items => existsb (fun x => same x w) items
      | _ => same v w
      end
  | In' ws =>
      match v with
      | array items => existsb (fun x => existsb (same x) ws) items
      | _ => existsb (same v) ws
      end
  end.

(** *** Updates *)

(** [{ path: v }] (that is, [$set]) and [{ $inc: { path: v } }]. *)
Inductive UpdateOp :=
| Assign (path : string) (v : value)
| Increment (path : string) (v : value).

Definition target (op : UpdateOp) : string :=
  match op with
  | Assign path _ | Increment path _ => path
  end.

(** What a strict schema leaves of an update: the operators on its own
    paths, their values cast. *)
Fixpoint castUpdate (schema : Schema) (update : list UpdateOp)
    : Result (list UpdateOp) :=
  match update with
  | [] => inr []
  | op :: rest =>
      match typeOf schema (target op) with
      | None => castUpdate schema rest
      | Some t =>
          match
            match op with
            | Assign path v =>
                match castTo t path v with
                | inl err => inl err
                | inr v' => inr (Assign path v')
                end
            | Increment path v =>
                match t, v with
                | TNumber, (number _ | rational _) => inr op
                | _, _ => inl (CastError path)
                end
            end
          with
          | inl err => inl err
          | inr op' =>
              match castUpdate schema rest with
              | inl err => inl err
              | inr rest' => inr (op' :: rest')
              end
          end
      end
  end.

(** The update validators of [runValidators: true]: [enum], [min] and
    [max] of the paths that are set. *)
Definition violates (schema : Schema) (op : UpdateOp) : bool :=
  match op with
  | Assign path v =>
      match pathOf schema path with
      | Some s =>
          match v with
          | text x =>
              match enum s with
              | [] => false
              | allowed => negb (existsb (String.eqb x) allowed)
              end
          | number n =>
              match min s with Some m => n <? m | None => false end
              || match max s with Some m => m <? n | None => false end
          | _ => false
          end
      | None => false
      end
  | Increment _ _ => false
  end.

Definition validateUpdate (schema : Schema) (ops : list UpdateOp) : list string :=
  map target (List.filter (violates schema) ops).

(** ** Documents *)

Module Course.

(** The schema of [src/unnamed/part_002]. *)
Definition schema : Schema :=
  [ ("title", mkSchemaPath TString true [] None None);
    ("description", mkSchemaPath TString true [] None None);
    ("instructor", mkSchemaPath (TObjectId "User") true [] None None);
    ("duration", mkSchemaPath TNumber true [] None None);
    ("level",
     mkSchemaPath TString true ["Beginner"; "Intermediate"; "Advanced"]
                  None None);
    ("category", mkSchemaPath TString true [] None None);
    ("price", mkSchemaPath TNumber true [] (Some 0) None);
    ("enrolledStudents", plain (TArray (TObjectId "User")));
    ("modules",
     plain (TArray (TEmbedded [ ("title", TString); ("content", TString);
                                ("videoUrl", TString); ("order", TNumber) ])));
    ("isPublished", plain TBoolean);
    ("createdAt", plain TDate);
    ("updatedAt", plain TDate) ].

(** A stored course: its [_id] and the fields the store holds for it. *)
Record doc := mk {
  _id : ObjectId;
  fields : list (string * value)
}.

(** [course.path] on a document of the model: a path of the schema reads
    the stored field, any other property is [undefined]. *)
Definition get (path : string) (c : doc) : value :=
  if String.eqb path "_id" then objectId (_id c)
  else if declared schema path then assoc path (fields c)
  else undefined.

(** [Course.findById] *)
Definition findById (id : value) (cs : list doc) : Result (option doc) :=
  match id with
  | objectId i => inr (List.find (fun c => String.eqb (_id c) i) cs)
  | undefined | null => inr None
  | _ => inl (CastError "_id")
  end.

Definition apply (op : UpdateOp) (c : doc) : doc :=
  match op with
  | Assign path v => mk (_id c) (setAssoc path v (fields c))
  | Increment path v =>
      match assoc path (fields c), v with
      | number a, number b => mk (_id c) (setAssoc path (number (a + b)) (fields c))
      | rational a, rational b =>
          mk (_id c) (setAssoc path (rational (a + b)) (fields c))
      | rational a, number b =>
          mk (_id c) (setAssoc path (rational (a + inject_Z b)) (fields c))
      | number a, rational b =>
          mk (_id c) (setAssoc path (rational (inject_Z a + b)) (fields c))
      | _, _ => mk (_id c) (setAssoc path v (fields c))
      end
  end.

Fixpoint updateFirst (id : ObjectId) (upd : doc -> doc) (cs : list doc)
    : list doc :=
  match cs with
  | [] => []
  | c :: rest =>
      if String.eqb (_id c) id then upd c :: rest
      else c :: updateFirst id upd rest
  end.

(** [Course.findByIdAndUpdate]: a missing document is not an error, and an
    update of which the schema leaves nothing writes nothing. *)
Definition findByIdAndUpdate (id : value) (update : list UpdateOp)
    (cs : list doc) : Result (list doc) :=
  match castUpdate schema update with
  | inl err => inl err
  | inr [] => inr cs
  | inr ops =>
      match id with
      | objectId i =>
          inr (updateFirst i (fun c => fold_left (fun c op => apply op c) ops c) cs)
      | undefined | null => inr cs
      | _ => inl (CastError "_id")
      end
  end.

End Course.

Module Enrollment.

(** The statuses the specification names; the schema's [enum] lists the
    first four. *)
Inductive Status := active | completed | dropped | suspended | cancelled.

Definition statusName (s : Status) : string :=
  match s with
  | active => "active"
  | completed => "completed"
  | dropped => "dropped"
  | suspended => "suspended"
  | cancelled => "cancelled"
  end.

Definition status_eqb (a b : Status) : bool :=
  match a, b with
  | active, active | completed, completed | dropped, dropped
  | suspended, suspended | cancelled, cancelled => true
  | _, _ => false
  end.

(** The schema of [src/models/Enrollment.js]; its [timestamps] option adds
    [createdAt] and [updatedAt]. *)
Definition schema : Schema :=
  [ ("student", mkSchemaPath (TObjectId "User") true [] None None);
    ("course", mkSchemaPath (TObjectId "Course") true [] None None);
    ("enrolledAt", plain TDate);
    ("status",
     mkSchemaPath TString false
                  ["active"; "completed"; "dropped"; "suspended"] None None);
    ("progress", mkSchemaPath TNumber false [] (Some 0) (Some 100));
    ("completedLessons", plain (TArray (TObjectId "Lesson")));
    ("grade", mkSchemaPath TNumber false [] (Some 0) (Some 100));
    ("completedAt", plain TDate);
    ("lastAccessedAt", plain TDate);
    ("createdAt", plain TDate);
    ("updatedAt", plain TDate) ].

(** A stored enrollment.  [status] is the stored string: an update that
    does not run the validators can store one that is not in the [enum]. *)
Record doc := mk {
  _id : ObjectId;
  student : ObjectId;
  course : ObjectId;
  enrolledAt : Time;
  status : string;
  progress : Z;
  completedLessons : list ObjectId;
  grade : option Z;
  completedAt : option Time;
  lastAccessedAt : Time;
  createdAt : Time;
  updatedAt : Time
}.

Definition set_status (s : string) (e : doc) : doc :=
  mk (_id e) (student e) (course e) (enrolledAt e) s (progress e)
     (completedLessons e) (grade e) (completedAt e) (lastAccessedAt e)
     (createdAt e) (updatedAt e).

Definition set_progress (p : Z) (e : doc) : doc :=
  mk (_id e) (student e) (course e) (enrolledAt e) (status e) p
     (completedLessons e) (grade e) (completedAt e) (lastAccessedAt e)
     (createdAt e) (updatedAt e).

Definition set_completedLessons (l : list ObjectId) (e : doc) : doc :=
  mk (_id e) (student e) (course e) (enrolledAt e) (status e) (progress e)
     l (grade e) (completedAt e) (lastAccessedAt e)
     (createdAt e) (updatedAt e).

Definition set_completedAt (t : option Time) (e : doc) : doc :=
  mk (_id e) (student e) (course e) (enrolledAt e) (status e) (progress e)
     (completedLessons e) (grade e) t (lastAccessedAt e)
     (createdAt e) (updatedAt e).

Definition set_updatedAt (t : Time) (e : doc) : doc :=
  mk (_id e) (student e) (course e) (enrolledAt e) (status e) (progress e)
     (completedLessons e) (grade e) (completedAt e) (lastAccessedAt e)
     (createdAt e) t.

Definition optional {A} (f : A -> value) (o : option A) : value :=
  match o with
  | Some a => f a
  | None => undefined
  end.

Definition entries (e : doc) : list (string * value) :=
  [ ("_id", objectId (_id e));
    ("student", objectId (student e));
    ("course", objectId (course e));
    ("enrolledAt", date (enrolledAt e));
    ("status", text (status e));
    ("progress", number (progress e));
    ("completedLessons", array (map objectId (completedLessons e)));
    ("grade", optional number (grade e));
    ("completedAt", optional date (completedAt e));
    ("lastAccessedAt", date (lastAccessedAt e));
    ("createdAt", date (createdAt e));
    ("updatedAt", date (updatedAt e)) ].

(** [enrollment.path] on a document of the model: a path of the schema
    reads the stored field, any other property is [undefined]. *)
Definition get (path : string) (e : doc) : value :=
  if declared schema path then assoc path (entries e) else undefined.

Fixpoint objectIds (items : list value) : list ObjectId :=
  match items with
  | [] => []
  | objectId i :: rest => i :: objectIds rest
  | _ :: rest => objectIds rest
  end.

(** One operator of a cast update, applied to the stored document.  A
    [null] on a path the record holds without [option] has no
    representation here; no route writes one. *)
Definition apply (op : UpdateOp) (e : doc) : doc :=
  match op with
  | Assign path v =>
      if String.eqb path "student"
      then match v with
           | objectId i =>
               mk (_id e) i (course e) (enrolledAt e) (status e) (progress e)
                  (completedLessons e) (grade e) (completedAt e)
                  (lastAccessedAt e) (createdAt e) (updatedAt e)
           | _ => e
           end
      else if String.eqb path "course"
      then match v with
           | objectId i =>
               mk (_id e) (student e) i (enrolledAt e) (status e) (progress e)
                  (completedLessons e) (grade e) (completedAt e)
                  (lastAccessedAt e) (createdAt e) (updatedAt e)
           | _ => e
           end
      else if String.eqb path "enrolledAt"
      then match v with
           | date t =>
               mk (_id e) (student e) (course e) t (status e) (progress e)
                  (completedLessons e) (grade e) (completedAt e)
                  (lastAccessedAt e) (createdAt e) (updatedAt e)
           | _ => e
           end
      else if String.eqb path "status"
      then match v with text s => set_status s e | _ => e end
      else if String.eqb path "progress"
      then match v with number n => set_progress n e | _ => e end
      else if String.eqb path "completedLessons"
      then match v with
           | array items => set_completedLessons (objectIds items) e
           | _ => e
           end
      else if String.eqb path "grade"
      then match v with
           | number n =>
               mk (_id e) (student e) (course e) (enrolledAt e) (status e)
                  (progress e) (completedLessons e) (Some n) (completedAt e)
                  (lastAccessedAt e) (createdAt e) (updatedAt e)
           | null =>
               mk (_id e) (student e) (course e) (enrolledAt e) (status e)
                  (progress e) (completedLessons e) None (completedAt e)
                  (lastAccessedAt e) (createdAt e) (updatedAt e)
           | _ => e
           end
      else if String.eqb path "completedAt"
      then match v with
           | date t => set_completedAt (Some t) e
           | null => set_completedAt None e
           | _ => e
           end
      else if String.eqb path "lastAccessedAt"
      then match v with
           | date t =>
               mk (_id e) (student e) (course e) (enrolledAt e) (status e)
                  (progress e) (completedLessons e) (grade e) (completedAt e)
                  t (createdAt e) (updatedAt e)
           | _ => e
           end
      else if String.eqb path "createdAt"
      then match v with
           | date t =>
               mk (_id e) (student e) (course e) (enrolledAt e) (status e)
                  (progress e) (completedLessons e) (grade e) (completedAt e)
                  (lastAccessedAt e) t (updatedAt e)
           | _ => e
           end
      else if String.eqb path "updatedAt"
      then match v with date t => set_updatedAt t e | _ => e end
      else e
  | Increment path v =>
      if String.eqb path "progress"
      then match v with number n => set_progress (progress e + n) e | _ => e end
      else if String.eqb path "grade"
      then match v, grade e with
           | number n, Some g =>
               mk (_id e) (student e) (course e) (enrolledAt e) (status e)
                  (progress e) (completedLessons e) (Some (g + n))
                  (completedAt e) (lastAccessedAt e) (createdAt e)
                  (updatedAt e)
           | number n, None =>
               mk (_id e) (student e) (course e) (enrolledAt e) (status e)
                  (progress e) (completedLessons e) (Some n)
                  (completedAt e) (lastAccessedAt e) (createdAt e)
                  (updatedAt e)
           | _, _ => e
           end
      else e
  end.

Definition applyAll (ops : list UpdateOp) (e : doc) : doc :=
  fold_left (fun e op => apply op e) ops e.

(** Whether a document meets every condition of a filter as the store
    receives it. *)
Definition matches (conditions : Filter) (e : doc) : bool :=
  forallb (fun pc => holds (assoc (fst pc) (entries e)) (snd pc)) conditions.

(** [Enrollment.find(filter)] *)
Definition find (o : Options) (filter : Filter) (docs : list doc)
    : Result (list doc) :=
  match castFilter o schema filter with
  | inl err => inl err
  | inr conditions => inr (List.filter (matches conditions) docs)
  end.

(** [Enrollment.findOne(filter)] *)
Definition findOne (o : Options) (filter : Filter) (docs : list doc)
    : Result (option doc) :=
  match castFilter o schema filter with
  | inl err => inl err
  | inr conditions => inr (List.find (matches conditions) docs)
  end.

(** [Enrollment.countDocuments(filter)] *)
Definition countDocuments (o : Options) (filter : Filter) (docs : list doc)
    : Result Z :=
  match castFilter o schema filter with
  | inl err => inl err
  | inr conditions =>
      inr (Z.of_nat (length (List.filter (matches conditions) docs)))
  end.

(** The first document that meets [p] is replaced by its update, which is
    also returned. *)
Fixpoint updateFirst (p : doc -> bool) (upd : doc -> doc) (docs : list doc)
    : option (doc * list doc) :=
  match docs with
  | [] => None
  | d :: rest =>
      if p d then Some (upd d, upd d :: rest)
      else match updateFirst p upd rest with
           | Some (d', rest') => Some (d', d :: rest')
           | None => None
           end
  end.

(** [Enrollment.findOneAndUpdate(filter, update, { new: true })], with
    [runValidators] as given.  Filter and update are cast before anything
    is sent to the store; the [timestamps] option of the schema makes
    Mongoose set [updatedAt] to its own reading of the clock, [stamp],
    whatever the update says about that path. *)
Definition findOneAndUpdate (o : Options) (stamp : Time) (filter : Filter)
    (update : list UpdateOp) (runValidators : bool) (docs : list doc)
    : Result (option (doc * list doc)) :=
  match castFilter o schema filter with
  | inl err => inl err
  | inr conditions =>
      match castUpdate schema update with
      | inl err => inl err
      | inr ops =>
          match (if runValidators then validateUpdate schema ops else []) with
          | [] =>
              inr (updateFirst (matches conditions)
                     (fun e => set_updatedAt stamp (applyAll ops e)) docs)
          | path :: paths => inl (ValidationError (path :: paths))
          end
      end
  end.

(** The key of the unique compound index of the schema. *)
Definition indexKey (e : doc) : ObjectId * ObjectId := (student e, course e).

End Enrollment.

Module Review.

Record doc := mk {
  _id : ObjectId;
  course : ObjectId;
  user : ObjectId;
  rating : Q;
  comment : string;
  isApproved : bool;
  createdAt : Time
}.

End Review.

(** ** The store *)

Record Db := mkDb {
  enrollments : list Enrollment.doc;
  courses : list Course.doc;
  reviews : list Review.doc
}.

Definition set_enrollments (es : list Enrollment.doc) (db : Db) : Db :=
  mkDb es (courses db) (reviews db).

Definition set_courses (cs : list Course.doc) (db : Db) : Db :=
  mkDb (enrollments db) cs (reviews db).

Definition set_reviews (rs : list Review.doc) (db : Db) : Db :=
  mkDb (enrollments db) (courses db) rs.

(** ** Responses *)

(** The bodies the router sends: [{ message }], [{ errors }],
    [{ message, error: error.message }], [{ message: error.message }], an
    enrollment with what [populate] attached to it, and
    [{ message, enrollment }]. *)
Inductive Json :=
| JMessage (message : string)
| JErrors (errors : list string)
| JFailure (message : string) (error : Error)
| JThrown (error : Error)
| JEnrollment (enrollment : option Enrollment.doc) (populated : option Course.doc)
| JUnenrolled (message : string) (enrollment : Enrollment.doc).

Record Response := mkResponse {
  code : nat;
  body : Json
}.

(** ** Transactions

    [session.withTransaction(body)]: the body reads and writes the store; a
    [throw] inside it aborts the transaction, so none of its writes
    survives, and the error reaches the handler's [catch]. *)

Definition Tx (A : Type) : Type := Db -> Result (A * Db).

Definition ret {A} (a : A) : Tx A := fun db => inr (a, db).

Definition bind {A B} (m : Tx A) (k : A -> Tx B) : Tx B :=
  fun db =>
    match m db with
    | inl err => inl err
    | inr (a, db') => k a db'
    end.

Definition throw {A} (err : Error) : Tx A := fun _ => inl err.

(** A query inside the transaction; its rejection is thrown. *)
Definition query {A} (q : Db -> Result A) : Tx A :=
  fun db =>
    match q db with
    | inl err => inl err
    | inr a => inr (a, db)
    end.

Notation "'let*' x ':=' m 'in' k" := (bind m (fun x => k))
  (at level 10, x name, m at level 100, k at level 200).

Definition withTransaction (tx : Tx unit) (db : Db) : Db * option Error :=
  match tx db with
  | inl err => (db, Some err)
  | inr (_, db') => (db', None)
  end.

(** The validators of the Enrollment schema on a whole document: the paths
    that fail. *)
Definition invalidPaths (e : Enrollment.doc) : list string :=
  validateUpdate Enrollment.schema
    [ Assign "status" (text (Enrollment.status e));
      Assign "progress" (number (Enrollment.progress e));
      Assign "grade" (Enrollment.optional number (Enrollment.grade e)) ].

(** [new Enrollment(fields)] followed by [save({ session })].  The strict
    schema keeps the fields that are paths of it and gives the others
    their defaults ([constructedAt] is the reading [Date.now] returns for
    them); [save] validates ([student] and [course] are required), stamps
    [createdAt] and [updatedAt] and inserts unless the [_id] or the key of
    the unique index is taken. *)
Definition create (oid : ObjectId) (constructedAt savedAt : Time)
    (fields : list (string * value)) : Tx unit :=
  fun db =>
    let given path :=
      if declared Enrollment.schema path then assoc path fields
      else undefined in
    match given "student", given "course" with
    | objectId student, objectId course =>
        let e :=
          Enrollment.mk oid student course
            (match given "enrolledAt" with
             | date t => t
             | _ => constructedAt
             end)
            (match given "status" with text s => s | _ => "active" end)
            (match given "progress" with number n => n | _ => 0 end)
            (match given "completedLessons" with
             | array items => Enrollment.objectIds items
             | _ => []
             end)
            (match given "grade" with number n => Some n | _ => None end)
            (match given "completedAt" with date t => Some t | _ => None end)
            (match given "lastAccessedAt" with
             | date t => t
             | _ => constructedAt
             end)
            savedAt savedAt in
        match invalidPaths e with
        | path :: paths => inl (ValidationError (path :: paths))
        | [] =>
            if existsb
                 (fun d => String.eqb (Enrollment._id d) oid
                           || (String.eqb (Enrollment.student d) student
                               && String.eqb (Enrollment.course d) course))
                 (enrollments db)
            then inl DuplicateKeyError
            else inr (tt, set_enrollments (enrollments db ++ [e]) db)
        end
    | s, c =>
        inl (ValidationError
               ((match s with objectId _ => [] | _ => ["student"] end)
                ++ (match c with objectId _ => [] | _ => ["course"] end)))
    end.

(** ** POST /  (enroll in a course) *)

(** JavaScript [n >= v] for a number [n].  A value that converts to no
    number compares false. *)
Definition atLeast (n : Z) (v : value) : bool :=
  match v with
  | number m => m <=? n
  | rational q => Qle_bool q (inject_Z n)
  | boolean b => (if b then 1 else 0) <=? n
  | null => 0 <=? n
  | date t => t <=? n
  | _ => false
  end.

(** [v.length] of an array or a string. *)
Definition lengthOf (v : value) : option nat :=
  match v with
  | array items => Some (length items)
  | text s => Some (String.length s)
  | _ => None
  end.

Definition itemsOf (v : value) : list value :=
  match v with
  | array items => items
  | _ => []
  end.

Definition enrollTx (o : Options) (now : nat -> Time)
    (oid user courseId : ObjectId) : Tx unit :=
  let* found :=
    query (fun db => Course.findById (objectId courseId) (courses db)) in
  let* course :=
    match found with
    | Some c =>
        if negb (truthy (Course.get "isActive" c))
        then throw (Thrown "Course not found or inactive")
        else ret c
    | None => throw (Thrown "Course not found or inactive")
    end in
  let* _ :=
    if truthy (Course.get "maxEnrollments" course)
    then
      let* currentEnrollments :=
        query (fun db =>
          Enrollment.countDocuments o
            [ ("courseId", Is (objectId courseId));
              ("status", In' [text "active"; text "completed"]) ]
            (enrollments db)) in
      if atLeast currentEnrollments (Course.get "maxEnrollments" course)
      then throw (Thrown "Course enrollment is full")
      else ret tt
    else ret tt in
  let* existingEnrollment :=
    query (fun db =>
      Enrollment.findOne o
        [ ("userId", Is (objectId user));
          ("courseId", Is (objectId courseId));
          ("status", In' [text "active"; text "completed"]) ]
        (enrollments db)) in
  let* _ :=
    match existingEnrollment with
    | Some _ => throw (Thrown "Already enrolled in this course")
    | None => ret tt
    end in
  let prerequisites := Course.get "prerequisites" course in
  let* _ :=
    if truthy prerequisites
       && match lengthOf prerequisites with
          | Some n => (0 <? n)%nat
          | None => false
          end
    then
      let* completedCourses :=
        query (fun db =>
          Enrollment.find o
            [ ("userId", Is (objectId user));
              ("courseId", In' (itemsOf prerequisites));
              ("status", Is (text "completed")) ]
            (enrollments db)) in
      if match lengthOf prerequisites with
         | Some n => (length completedCourses <? n)%nat
         | None => false
         end
      then throw (Thrown "Prerequisites not met")
      else ret tt
    else ret tt in
  let* _ :=
    create oid (now 1%nat) (now 2%nat)
      [ ("userId", objectId user);
        ("courseId", objectId courseId);
        ("enrolledAt", date (now 0%nat));
        ("status", text "active");
        ("progress", number 0);
        ("completedLessons", array []);
        ("timeSpent", number 0);
        ("certificates", array []) ] in
  fun db =>
    match Course.findByIdAndUpdate (objectId courseId)
            [Increment "enrollmentCount" (number 1)] (courses db) with
    | inl err => inl err
    | inr cs => inr (tt, set_courses cs db)
    end.

(** [.populate(path)] on a document a query returned: a reference the
    schema declares is followed (the store here holds the courses, not the
    users or the lessons); for any other path Mongoose throws or does
    nothing, as [strictPopulate] says. *)
Definition populate (o : Options) (path : string) (db : Db)
    (e : Enrollment.doc) : Result Json :=
  match typeOf Enrollment.schema path with
  | Some (TObjectId "Course") =>
      match Course.findById (Enrollment.get path e) (courses db) with
      | inl err => inl err
      | inr c => inr (JEnrollment (Some e) c)
      end
  | Some _ => inr (JEnrollment (Some e) None)
  | None =>
      if strictPopulate o then inl (StrictPopulateError path)
      else inr (JEnrollment (Some e) None)
  end.

(** The body's [courseId] passes [enrollmentValidation] when [isMongoId]
    accepts it. *)
Definition postEnrollment (o : Options) (now : nat -> Time)
    (oid user : ObjectId) (courseId : IdParam) (db : Db) : Db * Response :=
  match courseId with
  | NotAnId _ => (db, mkResponse 400 (JErrors ["Invalid course ID"]))
  | Id courseId =>
      match withTransaction (enrollTx o now oid user courseId) db with
      | (db', None) =>
          match Enrollment.findOne o
                  [ ("userId", Is (objectId user));
                    ("courseId", Is (objectId courseId)) ]
                  (enrollments db') with
          | inl err => (db', mkResponse 400 (JThrown err))
          | inr None => (db', mkResponse 201 (JEnrollment None None))
          | inr (Some e) =>
              match populate o "courseId" db' e with
              | inl err => (db', mkResponse 400 (JThrown err))
              | inr populatedEnrollment =>
                  (db', mkResponse 201 populatedEnrollment)
              end
          end
      | (db', Some err) => (db', mkResponse 400 (JThrown err))
      end
  end.

(** ** GET /:id *)

Definition getEnrollment (o : Options) (user : ObjectId) (id : IdParam)
    (db : Db) : Response :=
  match id with
  | NotAnId _ => mkResponse 400 (JMessage "Invalid enrollment ID")
  | Id _ =>
      match Enrollment.findOne o
              [("_id", Is (idValue id)); ("userId", Is (objectId user))]
              (enrollments db) with
      | inl err => mkResponse 500 (JFailure "Server error" err)
      | inr None => mkResponse 404 (JMessage "Enrollment not found")
      | inr (Some enrollment) =>
          match populate o "courseId" db enrollment with
          | inl err => mkResponse 500 (JFailure "Server error" err)
          | inr populated => mkResponse 200 populated
          end
      end
  end.

(** ** PATCH /:id/progress *)

Module ProgressBody.

(** A field that [isInt] is applied to: a JSON number that is an integer,
    a JSON string that spells one, or anything else. *)
Inductive Int :=
| num (n : Z)
| numeral (n : Z)
| notInt.

(** A field that [isArray] is applied to. *)
Inductive Lessons :=
| lessons (ids : list IdParam)
| notAnArray.

Record t := mk {
  progress : option Int;
  completedLessons : option Lessons;
  timeSpent : option Int;
  currentLesson : option string
}.

End ProgressBody.

(** [progressValidation]: [progress] is required and an integer of
    [0..100]; [completedLessons], when present, is an array; [timeSpent],
    when present, is a non-negative integer. *)
Definition progressValidation (b : ProgressBody.t) : list string :=
  (match ProgressBody.progress b with
   | Some (ProgressBody.num p) | Some (ProgressBody.numeral p) =>
       if (0 <=? p) && (p <=? 100) then []
       else ["Progress must be between 0 and 100"]
   | _ => ["Progress must be between 0 and 100"]
   end)
  ++
  (match ProgressBody.completedLessons b with
   | Some ProgressBody.notAnArray => ["Completed lessons must be an array"]
   | _ => []
   end)
  ++
  (match ProgressBody.timeSpent b with
   | Some (ProgressBody.num t) | Some (ProgressBody.numeral t) =>
       if 0 <=? t then []
       else ["Time spent must be a positive integer"]
   | Some ProgressBody.notInt => ["Time spent must be a positive integer"]
   | None => []
   end).

(** JavaScript [progress === 100]: false for the string "100". *)
Definition isHundred (p : option ProgressBody.Int) : bool :=
  match p with
  | Some (ProgressBody.num v) => v =? 100
  | _ => false
  end.

(** The field as Mongoose casts it for a Number path: the number, or the
    number the string spells.  A field that [isInt] refuses does not get
    past [progressValidation]. *)
Definition intValue (p : ProgressBody.Int) : value :=
  match p with
  | ProgressBody.num n | ProgressBody.numeral n => number n
  | ProgressBody.notInt => text ""
  end.

(** The array as the body carries it, each item a string; a field that
    [isArray] refuses does not get past [progressValidation]. *)
Definition lessonsValue (l : ProgressBody.Lessons) : value :=
  match l with
  | ProgressBody.lessons ids => array (map idValue ids)
  | ProgressBody.notAnArray => text ""
  end.

Definition whenGiven {A} (field : option A) (op : A -> UpdateOp)
    : list UpdateOp :=
  match field with
  | Some a => [op a]
  | None => []
  end.

Definition updateData (now : nat -> Time) (b : ProgressBody.t)
    : list UpdateOp :=
  [Assign "updatedAt" (date (now 0%nat))]
  ++ whenGiven (ProgressBody.progress b)
       (fun p => Assign "progress" (intValue p))
  ++ whenGiven (ProgressBody.completedLessons b)
       (fun l => Assign "completedLessons" (lessonsValue l))
  ++ whenGiven (ProgressBody.timeSpent b)
       (fun t => Increment "timeSpent" (intValue t))
  ++ whenGiven (ProgressBody.currentLesson b)
       (fun l => Assign "currentLesson" (text l))
  ++ (if isHundred (ProgressBody.progress b)
      then [ Assign "status" (text "completed");
             Assign "completedAt" (date (now 1%nat)) ]
      else []).

(** [enrollment.save()] of a document already stored, after the handler
    changed it in memory: what the strict schema leaves of the changes is
    written over the stored copy, with [updatedAt] stamped; when it leaves
    nothing, nothing is written. *)
Definition saveChanges (stamp : Time) (changes : list UpdateOp)
    (e : Enrollment.doc) (docs : list Enrollment.doc)
    : Result (Enrollment.doc * list Enrollment.doc) :=
  match castUpdate Enrollment.schema changes with
  | inl err => inl err
  | inr [] => inr (e, docs)
  | inr ops =>
      let e' := Enrollment.set_updatedAt stamp (Enrollment.applyAll ops e) in
      match Enrollment.updateFirst
              (fun d => String.eqb (Enrollment._id d) (Enrollment._id e))
              (fun _ => e') docs with
      | Some (_, docs') => inr (e', docs')
      | None => inr (e', docs)
      end
  end.

Definition patchProgress (o : Options) (now : nat -> Time) (user : ObjectId)
    (id : IdParam) (b : ProgressBody.t) (db : Db) : Db * Response :=
  match progressValidation b with
  | error :: errors => (db, mkResponse 400 (JErrors (error :: errors)))
  | [] =>
      match Enrollment.findOneAndUpdate o (now 2%nat)
              [ ("_id", Is (idValue id));
                ("userId", Is (objectId user));
                ("status", Is (text "active")) ]
              (updateData now b) true (enrollments db) with
      | inl err => (db, mkResponse 400 (JFailure "Update failed" err))
      | inr None =>
          (db, mkResponse 404 (JMessage "Active enrollment not found"))
      | inr (Some (enrollment, docs)) =>
          let db1 := set_enrollments docs db in
          match populate o "courseId" db1 enrollment with
          | inl err => (db1, mkResponse 400 (JFailure "Update failed" err))
          | inr populated =>
              if same (Enrollment.get "status" enrollment) (text "completed")
              then
                match Enrollment.get "certificates" enrollment with
                | array certificates =>
                    if (length certificates =? 0)%nat
                    then
                      let certificate :=
                        object
                          [ ("issuedAt", date (now 3%nat));
                            ("certificateId",
                             text ("CERT-" +:+ Enrollment._id enrollment
                                   +:+ "-" +:+ decimal (now 4%nat))) ] in
                      match saveChanges (now 5%nat)
                              [Assign "certificates"
                                 (array (certificates ++ [certificate]))]
                              enrollment docs with
                      | inl err =>
                          (db1, mkResponse 400 (JFailure "Update failed" err))
                      | inr (saved, docs') =>
                          (set_enrollments docs' db1,
                           mkResponse 200
                             match populated with
                             | JEnrollment _ course =>
                                 JEnrollment (Some saved) course
                             | other => other
                             end)
                      end
                    else (db1, mkResponse 200 populated)
                | text s =>
                    if String.eqb s ""
                    then (db1, mkResponse 400
                                 (JFailure "Update failed" (TypeError "push")))
                    else (db1, mkResponse 200 populated)
                | undefined | null =>
                    (db1, mkResponse 400
                            (JFailure "Update failed" (TypeError "length")))
                | _ =>
                    (db1, mkResponse 400
                            (JFailure "Update failed" (TypeError "push")))
                end
              else (db1, mkResponse 200 populated)
          end
      end
  end.

(** ** PATCH /:id/status *)

Definition validStatuses : list string := ["active"; "suspended"; "cancelled"].

(** [validStatuses.includes(status)] *)
Definition includes (l : list string) (status : string) : bool :=
  existsb (String.eqb status) l.

Definition patchStatus (o : Options) (now : nat -> Time) (user : ObjectId)
    (id : IdParam) (status : string) (db : Db) : Db * Response :=
  if negb (includes validStatuses status)
  then (db, mkResponse 400 (JMessage "Invalid status"))
  else
    match Enrollment.findOneAndUpdate o (now 1%nat)
            [("_id", Is (idValue id)); ("userId", Is (objectId user))]
            [ Assign "status" (text status);
              Assign "updatedAt" (date (now 0%nat)) ]
            false (enrollments db) with
    | inl err => (db, mkResponse 400 (JFailure "Status update failed" err))
    | inr None => (db, mkResponse 404 (JMessage "Enrollment not found"))
    | inr (Some (enrollment, docs)) =>
        let db1 := set_enrollments docs db in
        match populate o "courseId" db1 enrollment with
        | inl err =>
            (db1, mkResponse 400 (JFailure "Status update failed" err))
        | inr populated => (db1, mkResponse 200 populated)
        end
    end.

(** ** DELETE /:id  (unenroll, soft delete) *)

Definition deleteEnrollment (o : Options) (now : nat -> Time)
    (user : ObjectId) (id : IdParam) (db : Db) : Db * Response :=
  match Enrollment.findOneAndUpdate o (now 2%nat)
          [("_id", Is (idValue id)); ("userId", Is (objectId user))]
          [ Assign "status" (text "cancelled");
            Assign "cancelledAt" (date (now 0%nat));
            Assign "updatedAt" (date (now 1%nat)) ]
          false (enrollments db) with
  | inl err => (db, mkResponse 500 (JFailure "Unenrollment failed" err))
  | inr None => (db, mkResponse 404 (JMessage "Enrollment not found"))
  | inr (Some (enrollment, docs)) =>
      let db1 := set_enrollments docs db in
      match Course.findByIdAndUpdate (Enrollment.get "courseId" enrollment)
              [Increment "enrollmentCount" (number (-1))] (courses db1) with
      | inl err => (db1, mkResponse 500 (JFailure "Unenrollment failed" err))
      | inr cs =>
          (set_courses cs db1,
           mkResponse 200 (JUnenrolled "Successfully unenrolled" enrollment))
      end
  end.

(** ** Review aggregates  ([src/models/Review.js]) *)

(** One accumulator of the [$group] stage: the group key, the running sum
    and count behind [$avg: '$rating'], and the running [$sum: 1]. *)
Record Accumulator := mkAccumulator {
  key : ObjectId;
  ratingSum : Q;
  ratingCount : Z;
  ones : Z
}.

Fixpoint accumulate (r : Review.doc) (groups : list Accumulator)
    : list Accumulator :=
  match groups with
  | [] => [mkAccumulator (Review.course r) (Review.rating r) 1 1]
  | g :: rest =>
      if String.eqb (key g) (Review.course r)
      then mkAccumulator (key g) (ratingSum g + Review.rating r)%Q
                         (ratingCount g + 1) (ones g + 1) :: rest
      else g :: accumulate r rest
  end.

(** A document of the aggregation result. *)
Record RatingGroup := mkRatingGroup {
  group_id : ObjectId;
  averageRating : Q;
  totalReviews : Z
}.

Definition finish (g : Accumulator) : RatingGroup :=
  mkRatingGroup (key g) (ratingSum g / inject_Z (ratingCount g))%Q (ones g).

(** [this.aggregate([{ $match: { course, isApproved: true } },
                     { $group: { _id: '$course', ... } }])] *)
Definition aggregate (courseId : ObjectId) (docs : list Review.doc)
    : list RatingGroup :=
  let matched :=
    List.filter
      (fun r => String.eqb (Review.course r) courseId && Review.isApproved r)
      docs in
  map finish (fold_left (fun groups r => accumulate r groups) matched []).

(** Whether the two calls [getAverageRating] makes to the store fail. *)
Record StoreHealth := mkStoreHealth {
  aggregateFails : bool;
  updateFails : bool
}.

Definition healthy : StoreHealth := mkStoreHealth false false.

(** How a promise settles. *)
Inductive Settled :=
| Fulfilled
| Rejected (reason : string).

(** What a run of [getAverageRating] leaves behind: the promise it
    returned and the lines it wrote with [console.error]. *)
Record Recalculation := mkRecalculation {
  promise : Settled;
  console : list string
}.

(** [result[0]?.averageRating || 0] and [result[0]?.totalReviews || 0] *)
Definition averageOrZero (result : list RatingGroup) : Q :=
  match result with
  | g :: _ => averageRating g
  | [] => 0%Q
  end.

Definition totalOrZero (result : list RatingGroup) : Z :=
  match result with
  | g :: _ => totalReviews g
  | [] => 0
  end.

(** [reviewSchema.statics.getAverageRating]: the aggregation is awaited
    outside the [try] block, the course update inside it.  The update
    names [averageRating] and [totalReviews]; what it writes is what the
    Course schema leaves of it. *)
Definition getAverageRating (h : StoreHealth) (courseId : ObjectId) (db : Db)
    : Db * Recalculation :=
  if aggregateFails h
  then (db, mkRecalculation (Rejected "aggregate failed") [])
  else
    let result := aggregate courseId (reviews db) in
    if updateFails h
    then (db, mkRecalculation Fulfilled ["update failed"])
    else
      match Course.findByIdAndUpdate (objectId courseId)
              [ Assign "averageRating" (rational (averageOrZero result));
                Assign "totalReviews" (number (totalOrZero result)) ]
              (courses db) with
      | inl _ => (db, mkRecalculation Fulfilled ["update failed"])
      | inr cs => (set_courses cs db, mkRecalculation Fulfilled [])
      end.

(** [comment.length] for a string held as its UTF-8 bytes: one UTF-16
    code unit for a code point of the basic plane, two for one beyond. *)
Definition utf16Length (s : string) : nat :=
  fold_right
    (fun c n =>
       let b := Ascii.nat_of_ascii c in
       if (b <? 128)%nat then S n
       else if (b <? 192)%nat then n
       else if (b <? 240)%nat then S n
       else S (S n))
    0%nat (String.list_ascii_of_string s).

(** Schema validation of a review: [rating] within 1..5, [comment] required
    and of at most 500 characters. *)
Definition reviewValid (r : Review.doc) : bool :=
  Qle_bool 1 (Review.rating r) && Qle_bool (Review.rating r) 5
  && negb (String.eqb (Review.comment r) "")
  && (utf16Length (Review.comment r) <=? 500)%nat.

(** The driver's message for a violated unique index. *)
Definition duplicateKey : string := "E11000 duplicate key error".

(** The unique index on (course, user), against the other documents. *)
Definition reviewClash (r : Review.doc) (docs : list Review.doc) : bool :=
  existsb
    (fun d => negb (String.eqb (Review._id d) (Review._id r))
              && String.eqb (Review.course d) (Review.course r)
              && String.eqb (Review.user d) (Review.user r))
    docs.

(** Insert, or replace the stored copy with the same [_id]. *)
Fixpoint upsert (r : Review.doc) (docs : list Review.doc) : list Review.doc :=
  match docs with
  | [] => [r]
  | d :: rest =>
      if String.eqb (Review._id d) (Review._id r) then r :: rest
      else d :: upsert r rest
  end.

(** The outcome of a write on a review document: how the write itself
    settled and, when its post hook ran, what the recalculation it started
    (and did not await) left behind. *)
Record WriteOutcome := mkWriteOutcome {
  written : Settled;
  hook : option Recalculation
}.

(** [review.save()] followed by the [post('save')] hook. *)
Definition saveReview (h : StoreHealth) (r : Review.doc) (db : Db)
    : Db * WriteOutcome :=
  if negb (reviewValid r)
  then (db, mkWriteOutcome (Rejected "Review validation failed") None)
  else if reviewClash r (reviews db)
  then (db, mkWriteOutcome (Rejected duplicateKey) None)
  else
    let db1 := set_reviews (upsert r (reviews db)) db in
    let (db2, recalculation) := getAverageRating h (Review.course r) db1 in
    (db2, mkWriteOutcome Fulfilled (Some recalculation)).

(** [review.remove()] followed by the [post('remove')] hook. *)
Definition removeReview (h : StoreHealth) (r : Review.doc) (db : Db)
    : Db * WriteOutcome :=
  let db1 :=
    set_reviews
      (List.filter
         (fun d => negb (String.eqb (Review._id d) (Review._id r)))
         (reviews db)) db in
  let (db2, recalculation) := getAverageRating h (Review.course r) db1 in
  (db2, mkWriteOutcome Fulfilled (Some recalculation)).

(** ** Sequences of requests *)

Inductive Op :=
| Enroll (now : nat -> Time) (oid user : ObjectId) (courseId : IdParam)
| UpdateProgress (now : nat -> Time) (user : ObjectId) (id : IdParam)
    (b : ProgressBody.t)
| SetStatus (now : nat -> Time) (user : ObjectId) (id : IdParam)
    (status : string)
| Unenroll (now : nat -> Time) (user : ObjectId) (id : IdParam)
| SaveReview (h : StoreHealth) (r : Review.doc)
| RemoveReview (h : StoreHealth) (r : Review.doc)
| EditCourses (cs : list Course.doc).

(** One request served, or one edit of the course catalogue, which is
    maintained outside the routes modelled here. *)
Definition step (o : Options) (db : Db) (op : Op) : Db :=
  match op with
  | Enroll now oid user courseId =>
      fst (postEnrollment o now oid user courseId db)
  | UpdateProgress now user id b => fst (patchProgress o now user id b db)
  | SetStatus now user id status => fst (patchStatus o now user id status db)
  | Unenroll now user id => fst (deleteEnrollment o now user id db)
  | SaveReview h r => fst (saveReview h r db)
  | RemoveReview h r => fst (removeReview h r db)
  | EditCourses cs => set_courses cs db
  end.

Definition run (o : Options) (db : Db) (ops : list Op) : Db :=
  fold_left (step o) ops db.

(** A store with a course catalogue and no enrollment or review yet. *)
Definition initial (cs : list Course.doc) : Db := mkDb [] cs [].

Definition reachable (db : Db) : Prop :=
  exists o cs ops, run o (initial cs) ops = db.

(** * Properties *)

(** ** Queries and in-place updates *)

(** [Enrollment.findById], used to name a document in statements. *)
Definition findById (id : ObjectId) (docs : list Enrollment.doc)
    : option Enrollment.doc :=
  List.find (fun e => String.eqb (Enrollment._id e) id) docs.

Section Updates.

Variables p q : Enrollment.doc -> bool.
Variables upd upd' : Enrollment.doc -> Enrollment.doc.

Lemma updateFirst_Some docs d' docs' :
  Enrollment.updateFirst p upd docs = Some (d', docs') ->
  exists pre d post,
    docs = pre ++ d :: post /\ p d = true
    /\ (forall x, In x pre -> p x = false)
    /\ d' = upd d /\ docs' = pre ++ upd d :: post.
Proof.
  revert d' docs'. induction docs as [|x rest IH]; intros d' docs' H.
  - discriminate.
  - simpl in H. destruct (p x) eqn:Hx.
    + inversion H; subst. exists [], x, rest.
      repeat split; auto. intros y [].
    + destruct (Enrollment.updateFirst p upd rest)
        as [[d1 rest1]|] eqn:Hr; [|discriminate].
      inversion H; subst.
      destruct (IH _ _ eq_refl) as (pre & d & post & -> & Hd & Hpre & -> & ->).
      exists (x :: pre), d, post. repeat split; auto.
      intros y [<-|Hy]; auto.
Qed.

Lemma updateFirst_None docs :
  Enrollment.updateFirst p upd docs = None <->
  forall d, In d docs -> p d = false.
Proof.
  induction docs as [|x rest IH]; simpl.
  - split; [intros _ d []|reflexivity].
  - destruct (p x) eqn:Hx.
    + split; [discriminate|]. intros H.
      specialize (H x (or_introl eq_refl)). congruence.
    + destruct (Enrollment.updateFirst p upd rest) as [[? ?]|].
      * split; [discriminate|]. intros H. destruct IH as [_ IH].
        discriminate IH. intros y Hy. apply H. now right.
      * split; [|reflexivity]. intros _ y [<-|Hy]; [assumption|].
        destruct IH as [IH _]. now apply IH.
Qed.

Lemma updateFirst_middle pre d post :
  (forall x, In x pre -> p x = false) -> p d = true ->
  Enrollment.updateFirst p upd (pre ++ d :: post)
  = Some (upd d, pre ++ upd d :: post).
Proof.
  intros Hpre Hd. induction pre as [|x pre IH]; simpl.
  - now rewrite Hd.
  - rewrite (Hpre x) by now left.
    rewrite IH; [reflexivity|]. intros y Hy. apply Hpre. now right.
Qed.

Lemma updateFirst_ext docs :
  (forall d, p d = q d) -> (forall d, upd d = upd' d) ->
  Enrollment.updateFirst p upd docs = Enrollment.updateFirst q upd' docs.
Proof.
  intros Hp Hu. induction docs as [|x rest IH]; simpl; [reflexivity|].
  rewrite <- Hp, <- Hu, IH. reflexivity.
Qed.

End Updates.

Lemma updateFirst_never upd docs :
  Enrollment.updateFirst (fun _ => false) upd docs = None.
Proof. apply updateFirst_None. reflexivity. Qed.

Lemma map_update_middle {A B} (f : A -> B) pre (d d' : A) post :
  f d' = f d -> map f (pre ++ d' :: post) = map f (pre ++ d :: post).
Proof. intros H. rewrite !map_app. simpl. now rewrite H. Qed.

Lemma Forall_update_middle {A} (P : A -> Prop) pre (d d' : A) post :
  P d' -> Forall P (pre ++ d :: post) -> Forall P (pre ++ d' :: post).
Proof.
  intros Hd' H. apply Forall_app in H as [Hpre Hpost].
  apply Forall_app. split; [assumption|].
  inversion Hpost; subst. constructor; assumption.
Qed.

Lemma NoDup_map_In_eq {A B} (f : A -> B) (l : list A) a b :
  List.NoDup (map f l) -> In a l -> In b l -> f a = f b -> a = b.
Proof.
  induction l as [|x l IH]; intros Hnd Ha Hb Hf; [destruct Ha|].
  simpl in Hnd. inversion Hnd as [|? ? Hnotin Hnd']; subst.
  destruct Ha as [->|Ha], Hb as [->|Hb]; auto.
  - exfalso. apply Hnotin. rewrite Hf. now apply in_map.
  - exfalso. apply Hnotin. rewrite <- Hf. now apply in_map.
Qed.

Lemma findById_unique docs e :
  List.NoDup (map Enrollment._id docs) -> In e docs ->
  findById (Enrollment._id e) docs = Some e.
Proof.
  intros Hnd Hin. unfold findById.
  destruct (List.find _ docs) as [d|] eqn:Hf.
  - apply find_some in Hf as [Hd Heq]. apply String.eqb_eq in Heq.
    f_equal. eapply NoDup_map_In_eq; eauto.
  - eapply find_none in Hf; eauto. now rewrite String.eqb_refl in Hf.
Qed.

(** With unique [_id]s, the documents before [d] in the collection do not
    have its [_id]. *)
Lemma NoDup_before {A B} (f : A -> B) pre (d : A) post x :
  List.NoDup (map f (pre ++ d :: post)) -> In x pre -> f x <> f d.
Proof.
  intros Hnd Hx Heq. rewrite map_app in Hnd. simpl in Hnd.
  apply List.NoDup_remove_2 in Hnd. apply Hnd.
  apply in_or_app. left. rewrite <- Heq. now apply in_map.
Qed.

(** ** What the store receives *)

Definition byId (i : ObjectId) (e : Enrollment.doc) : bool :=
  String.eqb (Enrollment._id e) i.

Definition activeById (i : ObjectId) (e : Enrollment.doc) : bool :=
  String.eqb (Enrollment._id e) i && String.eqb (Enrollment.status e) "active".

(** The filter [{ _id, userId }]: under [strictQuery] the store is asked
    for the [_id] alone; otherwise it is asked for a field no stored
    enrollment has. *)
Lemma owner_filter o user i :
  exists conditions,
    castFilter o Enrollment.schema
      [("_id", Is (objectId i)); ("userId", Is (objectId user))]
    = inr conditions
    /\ forall e, Enrollment.matches conditions e
                 = if strictQuery o then byId i e else false.
Proof.
  destruct o as [[] sp]; simpl.
  - eexists. split; [reflexivity|]. intros e. unfold Enrollment.matches, byId.
    simpl. now rewrite andb_true_r.
  - eexists. split; [reflexivity|]. intros e. unfold Enrollment.matches.
    simpl. now rewrite andb_false_r.
Qed.

Lemma active_owner_filter o user i :
  exists conditions,
    castFilter o Enrollment.schema
      [ ("_id", Is (objectId i)); ("userId", Is (objectId user));
        ("status", Is (text "active")) ]
    = inr conditions
    /\ forall e, Enrollment.matches conditions e
                 = if strictQuery o then activeById i e else false.
Proof.
  destruct o as [[] sp]; simpl.
  - eexists. split; [reflexivity|]. intros e.
    unfold Enrollment.matches, activeById. simpl. now rewrite andb_true_r.
  - eexists. split; [reflexivity|]. intros e. unfold Enrollment.matches.
    simpl. now rewrite andb_false_r.
Qed.

Lemma not_an_id_filter o raw rest :
  castFilter o Enrollment.schema (("_id", Is (text raw)) :: rest)
  = inl (CastError "_id").
Proof. reflexivity. Qed.

(** [populate('courseId')]: [courseId] is not a path of the schema. *)
Lemma populate_courseId o db e :
  populate o "courseId" db e
  = if strictPopulate o then inl (StrictPopulateError "courseId")
    else inr (JEnrollment (Some e) None).
Proof. reflexivity. Qed.

(** The document PATCH /:id/status leaves in place of the matched one. *)
Definition restated (stamp : Time) (s : string) (e : Enrollment.doc)
    : Enrollment.doc :=
  Enrollment.set_updatedAt stamp (Enrollment.set_status s e).

(** The document DELETE /:id leaves in place of the matched one. *)
Definition unenrolled (stamp : Time) (e : Enrollment.doc) : Enrollment.doc :=
  Enrollment.set_updatedAt stamp (Enrollment.set_status "cancelled" e).

(** The answer of a route that populated [courseId] after its write. *)
Definition afterPopulate (o : Options) (failure : string)
    (e : Enrollment.doc) : Response :=
  if strictPopulate o
  then mkResponse 400 (JFailure failure (StrictPopulateError "courseId"))
  else mkResponse 200 (JEnrollment (Some e) None).

Lemma patchStatus_unfold o now user id status db :
  patchStatus o now user id status db
  = if negb (includes validStatuses status)
    then (db, mkResponse 400 (JMessage "Invalid status"))
    else
      match id with
      | NotAnId _ =>
          (db, mkResponse 400
                 (JFailure "Status update failed" (CastError "_id")))
      | Id i =>
          if strictQuery o
          then
            match Enrollment.updateFirst (byId i)
                    (restated (now 1%nat) status) (enrollments db) with
            | Some (e', docs) =>
                (set_enrollments docs db,
                 afterPopulate o "Status update failed" e')
            | None => (db, mkResponse 404 (JMessage "Enrollment not found"))
            end
          else (db, mkResponse 404 (JMessage "Enrollment not found"))
      end.
Proof.
  unfold patchStatus. destruct (negb (includes validStatuses status));
    [reflexivity|].
  destruct id as [i|raw]; [|reflexivity].
  unfold Enrollment.findOneAndUpdate. simpl idValue.
  destruct (owner_filter o user i) as (conditions & -> & Hmatch).
  simpl castUpdate. cbv iota.
  rewrite (updateFirst_ext _ (fun e => if strictQuery o then byId i e else false)
             _ (restated (now 1%nat) status) _ Hmatch)
    by (intros d; destruct d; reflexivity).
  destruct (strictQuery o).
  - destruct (Enrollment.updateFirst _ _ _) as [[e' docs]|]; [|reflexivity].
    rewrite populate_courseId. unfold afterPopulate.
    now destruct (strictPopulate o).
  - now rewrite updateFirst_never.
Qed.

Lemma deleteEnrollment_unfold o now user id db :
  deleteEnrollment o now user id db
  = match id with
    | NotAnId _ =>
        (db, mkResponse 500 (JFailure "Unenrollment failed" (CastError "_id")))
    | Id i =>
        if strictQuery o
        then
          match Enrollment.updateFirst (byId i) (unenrolled (now 2%nat))
                  (enrollments db) with
          | Some (e', docs) =>
              (set_enrollments docs db,
               mkResponse 200 (JUnenrolled "Successfully unenrolled" e'))
          | None => (db, mkResponse 404 (JMessage "Enrollment not found"))
          end
        else (db, mkResponse 404 (JMessage "Enrollment not found"))
    end.
Proof.
  unfold deleteEnrollment. destruct id as [i|raw]; [|reflexivity].
  unfold Enrollment.findOneAndUpdate. simpl idValue.
  destruct (owner_filter o user i) as (conditions & -> & Hmatch).
  simpl castUpdate. cbv iota.
  rewrite (updateFirst_ext _ (fun e => if strictQuery o then byId i e else false)
             _ (unenrolled (now 2%nat)) _ Hmatch)
    by (intros d; destruct d; reflexivity).
  destruct (strictQuery o).
  - destruct (Enrollment.updateFirst _ _ _) as [[e' docs]|]; [|reflexivity].
    destruct db; reflexivity.
  - now rewrite updateFirst_never.
Qed.

Lemma find_agree {A} (f g : A -> bool) (l : list A) :
  (forall x, f x = g x) -> List.find f l = List.find g l.
Proof.
  intros H. induction l as [|x l IH]; simpl; [reflexivity|].
  now rewrite H, IH.
Qed.

Lemma find_never {A} (l : list A) : List.find (fun _ => false) l = None.
Proof. induction l; simpl; auto. Qed.

Lemma getEnrollment_unfold o user id db :
  getEnrollment o user id db
  = match id with
    | NotAnId _ => mkResponse 400 (JMessage "Invalid enrollment ID")
    | Id i =>
        if strictQuery o
        then
          match findById i (enrollments db) with
          | Some e =>
              if strictPopulate o
              then mkResponse 500
                     (JFailure "Server error" (StrictPopulateError "courseId"))
              else mkResponse 200 (JEnrollment (Some e) None)
          | None => mkResponse 404 (JMessage "Enrollment not found")
          end
        else mkResponse 404 (JMessage "Enrollment not found")
    end.
Proof.
  unfold getEnrollment. destruct id as [i|raw]; [|reflexivity].
  unfold Enrollment.findOne. simpl idValue.
  destruct (owner_filter o user i) as (conditions & -> & Hmatch).
  rewrite (find_agree _ (fun e => if strictQuery o then byId i e else false))
    by exact Hmatch.
  destruct (strictQuery o).
  - unfold findById. fold (byId i).
    destruct (List.find (byId i) (enrollments db)); [|reflexivity].
    rewrite populate_courseId. now destruct (strictPopulate o).
  - now rewrite find_never.
Qed.

(** ** PATCH /:id/progress, step by step *)

(** The lessons of a body as ObjectIds, when each of them is one. *)
Fixpoint lessonIds (ids : list IdParam) : option (list ObjectId) :=
  match ids with
  | [] => Some []
  | Id i :: rest =>
      match lessonIds rest with
      | Some l => Some (i :: l)
      | None => None
      end
  | NotAnId _ :: _ => None
  end.

(** Whether Mongoose can cast the [completedLessons] of a body. *)
Definition castsWell (b : ProgressBody.t) : bool :=
  match ProgressBody.completedLessons b with
  | Some (ProgressBody.lessons ids) =>
      match lessonIds ids with Some _ => true | None => false end
  | _ => true
  end.

(** The document PATCH /:id/progress leaves in place of the matched one. *)
Definition progressed (now : nat -> Time) (b : ProgressBody.t)
    (e : Enrollment.doc) : Enrollment.doc :=
  Enrollment.mk (Enrollment._id e) (Enrollment.student e)
    (Enrollment.course e) (Enrollment.enrolledAt e)
    (if isHundred (ProgressBody.progress b) then "completed"
     else Enrollment.status e)
    (match ProgressBody.progress b with
     | Some (ProgressBody.num n) | Some (ProgressBody.numeral n) => n
     | _ => Enrollment.progress e
     end)
    (match ProgressBody.completedLessons b with
     | Some (ProgressBody.lessons ids) =>
         match lessonIds ids with
         | Some l => l
         | None => Enrollment.completedLessons e
         end
     | _ => Enrollment.completedLessons e
     end)
    (Enrollment.grade e)
    (if isHundred (ProgressBody.progress b) then Some (now 1%nat)
     else Enrollment.completedAt e)
    (Enrollment.lastAccessedAt e) (Enrollment.createdAt e) (now 2%nat).

Lemma objectIds_map l : Enrollment.objectIds (map objectId l) = l.
Proof. induction l; simpl; congruence. Qed.

Lemma castTo_lessons ref path ids :
  castTo (TArray (TObjectId ref)) path (array (map idValue ids))
  = match lessonIds ids with
    | Some l => inr (array (map objectId l))
    | None => inl (CastError path)
    end.
Proof.
  simpl.
  induction ids as [|[i|raw] ids IH]; simpl; [reflexivity| |reflexivity].
  destruct (lessonIds ids) as [l|].
  - destruct ((fix each (l0 : list value) : Result (list value) := _) (map idValue ids))
      as [err|items] eqn:E; [discriminate|].
    inversion IH; subst. reflexivity.
  - destruct ((fix each (l0 : list value) : Result (list value) := _) (map idValue ids))
      as [err|items] eqn:E; [|discriminate].
    inversion IH; subst. reflexivity.
Qed.

Lemma range_ok p :
  (0 <=? p) && (p <=? 100) = true -> (p <? 0) || (100 <? p) = false.
Proof.
  intros H. apply andb_prop in H as [H1 H2].
  apply Z.leb_le in H1, H2. apply orb_false_intro; apply Z.ltb_ge; lia.
Qed.

(** What Mongoose makes of [updateData] for a body that passed validation:
    a cast error for a lesson that is no ObjectId, and otherwise an update
    that passes the validators and turns the matched document into
    [progressed]. *)
Lemma updateData_cast now b :
  progressValidation b = [] ->
  if castsWell b
  then exists ops,
         castUpdate Enrollment.schema (updateData now b) = inr ops
         /\ validateUpdate Enrollment.schema ops = []
         /\ forall e, Enrollment.set_updatedAt (now 2%nat)
                        (Enrollment.applyAll ops e)
                      = progressed now b e
  else castUpdate Enrollment.schema (updateData now b)
       = inl (CastError "completedLessons").
Proof.
  intros Hvalid. unfold progressValidation in Hvalid.
  apply app_eq_nil in Hvalid as [Hp Hrest].
  apply app_eq_nil in Hrest as [Hl Ht].
  destruct b as [p l t c]. simpl in Hp, Hl, Ht.
  unfold castsWell, updateData, progressed. simpl ProgressBody.progress.
  simpl ProgressBody.completedLessons. simpl ProgressBody.timeSpent.
  simpl ProgressBody.currentLesson.
  assert (Hrange : exists n,
            (p = Some (ProgressBody.num n) \/ p = Some (ProgressBody.numeral n))
            /\ (n <? 0) || (100 <? n) = false).
  { destruct p as [[n|n|]|]; try discriminate;
      (destruct ((0 <=? n) && (n <=? 100)) eqn:Hr; [|discriminate]);
      exists n; split; auto using range_ok. }
  destruct Hrange as (n & Hpn & Hn).
  destruct l as [[ids|]|]; [| discriminate |].
  - pose proof (castTo_lessons "Lesson" "completedLessons" ids) as Hcast.
    simpl in Hcast.
    destruct (lessonIds ids) as [lids|] eqn:Hids.
    + destruct Hpn as [-> | ->]; simpl isHundred;
        [destruct (n =? 100) eqn:H100|];
        destruct t as [[tn|tn|]|]; try discriminate; destruct c as [cl|];
        unfold whenGiven, lessonsValue, intValue;
        (simpl; rewrite Hcast; simpl; eexists; split; [reflexivity|]; split;
         [unfold validateUpdate; simpl; rewrite ?Hn; reflexivity
         |intros e; destruct e; simpl; rewrite ?objectIds_map; reflexivity]).
    + destruct Hpn as [-> | ->]; simpl isHundred;
        [destruct (n =? 100) eqn:H100|];
        destruct t as [[tn|tn|]|]; try discriminate; destruct c as [cl|];
        unfold whenGiven, lessonsValue, intValue;
        (simpl; rewrite Hcast; reflexivity).
  - destruct Hpn as [-> | ->]; simpl isHundred;
      [destruct (n =? 100) eqn:H100|];
      destruct t as [[tn|tn|]|]; try discriminate; destruct c as [cl|];
      unfold whenGiven, lessonsValue, intValue;
      (simpl; eexists; split; [reflexivity|]; split;
       [unfold validateUpdate; simpl; rewrite ?Hn; reflexivity
       |intros e; destruct e; reflexivity]).
Qed.

(** The answer of PATCH /:id/progress after its write. *)
Definition afterProgress (o : Options) (e : Enrollment.doc) : Response :=
  if strictPopulate o
  then mkResponse 400 (JFailure "Update failed" (StrictPopulateError "courseId"))
  else if String.eqb (Enrollment.status e) "completed"
  then mkResponse 400 (JFailure "Update failed" (TypeError "length"))
  else mkResponse 200 (JEnrollment (Some e) None).

Lemma patchProgress_unfold o now user id b db :
  progressValidation b = [] ->
  patchProgress o now user id b db
  = match id with
    | NotAnId _ =>
        (db, mkResponse 400 (JFailure "Update failed" (CastError "_id")))
    | Id i =>
        if negb (castsWell b)
        then (db, mkResponse 400
                    (JFailure "Update failed" (CastError "completedLessons")))
        else if strictQuery o
        then
          match Enrollment.updateFirst (activeById i) (progressed now b)
                  (enrollments db) with
          | Some (e', docs) => (set_enrollments docs db, afterProgress o e')
          | None =>
              (db, mkResponse 404 (JMessage "Active enrollment not found"))
          end
        else (db, mkResponse 404 (JMessage "Active enrollment not found"))
    end.
Proof.
  intros Hvalid. unfold patchProgress. rewrite Hvalid.
  destruct id as [i|raw]; [|reflexivity].
  unfold Enrollment.findOneAndUpdate. simpl idValue.
  destruct (active_owner_filter o user i) as (conditions & -> & Hmatch).
  pose proof (updateData_cast now b Hvalid) as Hcast.
  destruct (castsWell b); simpl negb; cbv iota.
  - destruct Hcast as (ops & -> & -> & Hupd).
    rewrite (updateFirst_ext _
               (fun e => if strictQuery o then activeById i e else false)
               _ (progressed now b) _ Hmatch Hupd).
    destruct (strictQuery o).
    + destruct (Enrollment.updateFirst _ _ _) as [[e' docs]|]; [|reflexivity].
      rewrite populate_courseId. unfold afterProgress.
      destruct (strictPopulate o); [reflexivity|].
      unfold Enrollment.get. simpl.
      destruct (String.eqb (Enrollment.status e') "completed"); reflexivity.
    + now rewrite updateFirst_never.
  - now rewrite Hcast.
Qed.

(** ** Sample stores *)

Definition clock : nat -> Time := fun k => 1700000000000 + Z.of_nat k.

(** Both settings strict, and both loose. *)
Definition strictSettings : Options := mkOptions true true.
Definition looseSettings : Options := mkOptions false false.

Definition course (id title : string) : Course.doc :=
  Course.mk id
    [ ("title", text title);
      ("description", text "An introduction");
      ("instructor", objectId "teacher-1");
      ("duration", number 12);
      ("level", text "Beginner");
      ("category", text "Mathematics");
      ("price", number 0);
      ("enrolledStudents", array []);
      ("modules", array []);
      ("isPublished", boolean true);
      ("createdAt", date 1690000000000);
      ("updatedAt", date 1690000000000) ].

Definition catalogue : list Course.doc :=
  [course "course-A" "Algebra"; course "course-B" "Geometry";
   course "course-C" "Calculus"].

(** user-1 is enrolled in course-A, at progress 40. *)
Definition enr1 : Enrollment.doc :=
  Enrollment.mk "enr-1" "user-1" "course-A" 1699000000000 "active" 40 []
                None None 1699000000000 1699000000000 1699000000000.

Definition dbEnrolled : Db := mkDb [enr1] catalogue [].

(** The same enrollment, completed: user-1 has completed course-A and
    nothing else. *)
Definition enr1Completed : Enrollment.doc :=
  Enrollment.mk "enr-1" "user-1" "course-A" 1699000000000 "completed" 100 []
                None (Some 1699500000000) 1699000000000 1699000000000
                1699500000000.

Definition dbCompleted : Db := mkDb [enr1Completed] catalogue [].

Definition toHundred : ProgressBody.t :=
  ProgressBody.mk (Some (ProgressBody.num 100)) None None None.

Definition toForty : ProgressBody.t :=
  ProgressBody.mk (Some (ProgressBody.num 40)) None None None.

(** ** POST /: the admission transaction *)

(** No document of the Course model has a truthy [isActive]: the schema
    has no such path, so the first check of the transaction refuses. *)
Lemma enrollTx_refused o now oid user courseId db :
  enrollTx o now oid user courseId db
  = inl (Thrown "Course not found or inactive").
Proof.
  unfold enrollTx, bind, query. simpl.
  destruct (List.find _ (courses db)); reflexivity.
Qed.

Lemma postEnrollment_unfold o now oid user courseId db :
  postEnrollment o now oid user courseId db
  = (db, mkResponse 400
           match courseId with
           | Id _ => JThrown (Thrown "Course not found or inactive")
           | NotAnId _ => JErrors ["Invalid course ID"]
           end).
Proof.
  destruct courseId as [c|raw]; [|reflexivity].
  unfold postEnrollment, withTransaction. now rewrite enrollTx_refused.
Qed.

(** C2.  Every enrollment request is refused before the second check is
    reached: the answer is 400 with the validation error for a [courseId]
    that is no ObjectId and 400 "Course not found or inactive" for every
    other request, whether the course exists or not, and the store stays
    as it was. *)
Theorem enrollment_is_always_refused
    (o : Options) (now : nat -> Time) (oid user : ObjectId)
    (courseId : IdParam) (db : Db) :
  fst (postEnrollment o now oid user courseId db) = db
  /\ code (snd (postEnrollment o now oid user courseId db)) = 400%nat
  /\ body (snd (postEnrollment o now oid user courseId db))
     = match courseId with
       | Id _ => JThrown (Thrown "Course not found or inactive")
       | NotAnId _ => JErrors ["Invalid course ID"]
       end
  /\ forall c, Course.get "isActive" c = undefined
               /\ Course.get "maxEnrollments" c = undefined
               /\ Course.get "prerequisites" c = undefined.
Proof.
  rewrite postEnrollment_unfold. simpl. repeat split.
Qed.





(** ** How one request changes the stored enrollments *)

(** The ways a stored enrollment can differ after one request. *)
Inductive evolves (e : Enrollment.doc) : Enrollment.doc -> Prop :=
| evolves_same : evolves e e
| evolves_progress now b :
    progressValidation b = [] ->
    castsWell b = true ->
    Enrollment.status e = "active" ->
    evolves e (progressed now b e)
| evolves_status stamp s :
    includes validStatuses s = true -> evolves e (restated stamp s e)
| evolves_unenroll stamp : evolves e (unenrolled stamp e).

Lemma Forall2_same {A} (R : A -> A -> Prop) (l : list A) :
  (forall a, R a a) -> Forall2 R l l.
Proof. intros H. induction l; constructor; auto. Qed.

Lemma updateFirst_Forall2 (R : Enrollment.doc -> Enrollment.doc -> Prop)
    p upd docs e' docs' :
  (forall d, R d d) -> (forall d, p d = true -> R d (upd d)) ->
  Enrollment.updateFirst p upd docs = Some (e', docs') ->
  Forall2 R docs docs'.
Proof.
  intros Hrefl Hupd H.
  apply updateFirst_Some in H as (pre & d & post & -> & Hd & _ & _ & ->).
  apply Forall2_app; [now apply Forall2_same|].
  constructor; [now apply Hupd|now apply Forall2_same].
Qed.

Lemma activeById_status i e :
  activeById i e = true -> Enrollment.status e = "active".
Proof.
  unfold activeById. intros H. apply andb_prop in H as [_ H].
  now apply String.eqb_eq in H.
Qed.

Lemma activeById_id i e : activeById i e = true -> Enrollment._id e = i.
Proof.
  unfold activeById. intros H. apply andb_prop in H as [H _].
  now apply String.eqb_eq in H.
Qed.

Lemma getAverageRating_frame h courseId db :
  enrollments (fst (getAverageRating h courseId db)) = enrollments db
  /\ reviews (fst (getAverageRating h courseId db)) = reviews db
  /\ courses (fst (getAverageRating h courseId db)) = courses db.
Proof.
  unfold getAverageRating.
  destruct (aggregateFails h); [auto|].
  destruct (updateFails h); [auto|]. simpl. auto.
Qed.

Lemma saveReview_enrollments h r db :
  enrollments (fst (saveReview h r db)) = enrollments db.
Proof.
  unfold saveReview.
  destruct (reviewValid r); simpl; [|reflexivity].
  destruct (reviewClash r (reviews db)); simpl; [reflexivity|].
  destruct (getAverageRating h _ _) as [db2 rc] eqn:E. simpl.
  change db2 with (fst (db2, rc)). rewrite <- E.
  now rewrite (proj1 (getAverageRating_frame _ _ _)).
Qed.

Lemma removeReview_enrollments h r db :
  enrollments (fst (removeReview h r db)) = enrollments db.
Proof.
  unfold removeReview.
  destruct (getAverageRating h _ _) as [db2 rc] eqn:E. simpl.
  change db2 with (fst (db2, rc)). rewrite <- E.
  now rewrite (proj1 (getAverageRating_frame _ _ _)).
Qed.

Lemma patchProgress_invalid o now user id b db :
  progressValidation b <> [] ->
  patchProgress o now user id b db
  = (db, mkResponse 400 (JErrors (progressValidation b))).
Proof.
  intros H. unfold patchProgress.
  destruct (progressValidation b); [contradiction|reflexivity].
Qed.

(** Each stored enrollment is, after one request, what it was or one of
    the three rewritings; none is added and none is removed. *)
Lemma step_evolves o db op :
  Forall2 evolves (enrollments db) (enrollments (step o db op)).
Proof.
  assert (Hsame : Forall2 evolves (enrollments db) (enrollments db))
    by (apply Forall2_same; constructor).
  destruct op; simpl.
  - now rewrite postEnrollment_unfold.
  - destruct (progressValidation b) as [|err errs] eqn:Hvalid.
    + rewrite patchProgress_unfold by assumption.
      destruct id as [i|raw]; [|assumption].
      destruct (castsWell b) eqn:Hcast; simpl; [|assumption].
      destruct (strictQuery o); [|assumption].
      destruct (Enrollment.updateFirst _ _ _) as [[e' docs]|] eqn:Hupd;
        [|assumption].
      simpl. eapply updateFirst_Forall2; [| |exact Hupd].
      * apply evolves_same.
      * intros d Hd. apply evolves_progress; auto.
        eapply activeById_status; eauto.
    + rewrite patchProgress_invalid by (rewrite Hvalid; discriminate).
      assumption.
  - rewrite patchStatus_unfold.
    destruct (includes validStatuses status) eqn:Hs; simpl; [|assumption].
    destruct id as [i|raw]; [|assumption].
    destruct (strictQuery o); [|assumption].
    destruct (Enrollment.updateFirst _ _ _) as [[e' docs]|] eqn:Hupd;
      [|assumption].
    simpl. eapply updateFirst_Forall2; [| |exact Hupd].
    + apply evolves_same.
    + intros d _. now apply evolves_status.
  - rewrite deleteEnrollment_unfold.
    destruct id as [i|raw]; [|assumption].
    destruct (strictQuery o); [|assumption].
    destruct (Enrollment.updateFirst _ _ _) as [[e' docs]|] eqn:Hupd;
      [|assumption].
    simpl. eapply updateFirst_Forall2; [| |exact Hupd].
    + apply evolves_same.
    + intros d _. apply evolves_unenroll.
  - now rewrite saveReview_enrollments.
  - now rewrite removeReview_enrollments.
  - assumption.
Qed.

Lemma Forall2_Forall {A} (R : A -> A -> Prop) (P : A -> Prop) l l' :
  (forall a b, R a b -> P a -> P b) ->
  Forall2 R l l' -> Forall P l -> Forall P l'.
Proof.
  intros Hstep H. induction H; intros Hl; [constructor|].
  inversion Hl; subst. constructor; eauto.
Qed.

Lemma Forall2_map_eq {A B} (R : A -> A -> Prop) (f : A -> B) l l' :
  (forall a b, R a b -> f b = f a) -> Forall2 R l l' -> map f l' = map f l.
Proof.
  intros Hf H. induction H; simpl; [reflexivity|].
  f_equal; auto.
Qed.

(** A property of single enrollments that each rewriting keeps holds in
    the store after any sequence of requests if it held before. *)
Lemma run_Forall (P : Enrollment.doc -> Prop) o ops :
  (forall e e', evolves e e' -> P e -> P e') ->
  forall db, Forall P (enrollments db) ->
             Forall P (enrollments (run o db ops)).
Proof.
  intros Hkeep. induction ops as [|op ops IH]; intros db H; simpl; auto.
  apply IH. eapply Forall2_Forall; [exact Hkeep|apply step_evolves|exact H].
Qed.

Lemma run_map {B} (f : Enrollment.doc -> B) o ops :
  (forall e e', evolves e e' -> f e' = f e) ->
  forall db, map f (enrollments (run o db ops)) = map f (enrollments db).
Proof.
  intros Hkeep. induction ops as [|op ops IH]; intros db; simpl; auto.
  rewrite IH. eapply Forall2_map_eq; [exact Hkeep|apply step_evolves].
Qed.

(** ** The unique index *)

(** The store's [_id] index and the unique index of the schema on
    (student, course). *)
Record indexed (db : Db) : Prop := mkIndexed {
  ix_ids : List.NoDup (map Enrollment._id (enrollments db));
  ix_keys : List.NoDup (map Enrollment.indexKey (enrollments db))
}.

Lemma evolves_id e e' : evolves e e' -> Enrollment._id e' = Enrollment._id e.
Proof. intros H. destruct H; reflexivity. Qed.

Lemma evolves_key e e' :
  evolves e e' -> Enrollment.indexKey e' = Enrollment.indexKey e.
Proof. intros H. destruct H; reflexivity. Qed.

(** C5.  The unique index on (student, course) holds after every sequence
    of requests if it held before, so at most one enrollment of any status
    exists per pair; but a further request of a student who holds an
    enrollment in the course is answered "Course not found or inactive",
    not "Already enrolled in this course". *)
Theorem one_enrollment_per_pair_is_kept
    (o : Options) (db : Db) (ops : list Op) :
  indexed db ->
  indexed (run o db ops)
  /\ (forall student course,
        (length (List.filter
                   (fun e => String.eqb (Enrollment.student e) student
                             && String.eqb (Enrollment.course e) course)
                   (enrollments (run o db ops))) <= 1)%nat)
  /\ (forall e now oid,
        In e (enrollments (run o db ops)) ->
        postEnrollment o now oid (Enrollment.student e)
          (Id (Enrollment.course e)) (run o db ops)
        = (run o db ops,
           mkResponse 400 (JThrown (Thrown "Course not found or inactive")))).
Proof.
  intros [Hids Hkeys].
  assert (Hix : indexed (run o db ops)).
  { constructor.
    - rewrite (run_map Enrollment._id o ops evolves_id). exact Hids.
    - rewrite (run_map Enrollment.indexKey o ops evolves_key). exact Hkeys. }
  split; [exact Hix|]. split.
  - intros student course. destruct Hix as [_ Hk].
    induction (enrollments (run o db ops)) as [|x l IH]; simpl; [lia|].
    simpl in Hk. inversion Hk as [|? ? Hx Hk']; subst.
    destruct (String.eqb (Enrollment.student x) student
              && String.eqb (Enrollment.course x) course) eqn:Hm;
      [|now apply IH].
    simpl. destruct (List.filter _ l) as [|y rest] eqn:Hf; [simpl; lia|].
    exfalso. apply Hx.
    assert (Hy : In y (List.filter
                         (fun e => String.eqb (Enrollment.student e) student
                                   && String.eqb (Enrollment.course e) course)
                         l)) by (rewrite Hf; now left).
    apply filter_In in Hy as [Hy Hmy].
    apply andb_prop in Hm as [Hs Hc]. apply andb_prop in Hmy as [Hsy Hcy].
    apply String.eqb_eq in Hs, Hc, Hsy, Hcy.
    apply in_map_iff. exists y. split; [|assumption].
    unfold Enrollment.indexKey. now rewrite Hs, Hc, Hsy, Hcy.
  - intros e now oid _. now rewrite postEnrollment_unfold.
Qed.

Lemma one_enrollment_per_pair_is_kept_witness :
  indexed (run strictSettings dbEnrolled
             [ SetStatus clock "user-1" (Id "enr-1") "cancelled";
               Enroll clock "enr-2" "user-1" (Id "course-A") ]).
Proof.
  refine (proj1 (one_enrollment_per_pair_is_kept strictSettings dbEnrolled
                   [ SetStatus clock "user-1" (Id "enr-1") "cancelled";
                     Enroll clock "enr-2" "user-1" (Id "course-A") ] _)).
  constructor; simpl; repeat constructor; simpl; tauto.
Defined.

(** ** The one document a request addresses *)

(** With unique [_id]s, a filter that can only match the [_id] of [e], and
    does match [e], rewrites [e] where it stands. *)
Lemma updateFirst_at p upd docs e :
  List.NoDup (map Enrollment._id docs) -> In e docs -> p e = true ->
  (forall x, p x = true -> Enrollment._id x = Enrollment._id e) ->
  exists pre post,
    docs = pre ++ e :: post
    /\ Enrollment.updateFirst p upd docs = Some (upd e, pre ++ upd e :: post).
Proof.
  intros Hnd Hin He Hid.
  apply in_split in Hin as (pre & post & ->).
  exists pre, post. split; [reflexivity|].
  apply updateFirst_middle; [|assumption].
  intros x Hx. destruct (p x) eqn:Hpx; [|reflexivity].
  exfalso. eapply (NoDup_before Enrollment._id); eauto.
Qed.

Lemma findById_rewritten pre e e' post :
  List.NoDup (map Enrollment._id (pre ++ e :: post)) ->
  Enrollment._id e' = Enrollment._id e ->
  findById (Enrollment._id e) (pre ++ e' :: post) = Some e'.
Proof.
  intros Hnd Hid. rewrite <- Hid. apply findById_unique.
  - now rewrite (map_update_middle Enrollment._id pre e e' post Hid).
  - apply in_or_app. right. now left.
Qed.

Lemma byId_refl e : byId (Enrollment._id e) e = true.
Proof. apply String.eqb_refl. Qed.

Lemma byId_id i e : byId i e = true -> Enrollment._id e = i.
Proof. apply String.eqb_eq. Qed.

(** ** Completion *)

(** C1.  A progress update to exactly 100 on an active enrollment never
    issues a certificate and never answers 200.  When the filter reaches
    the enrollment ([strictQuery]), the update is written (status
    completed, [completedAt] stamped, progress 100) and the request then
    fails with 400 "Update failed", the write left in place; a second such
    request finds no active enrollment and answers 404.  When the filter
    keeps its [userId] condition, nothing matches and the answer is 404
    with the store as it was.  No document carries a [certificates]
    path. *)
Theorem completion_issues_no_certificate
    (o : Options) (now now' : nat -> Time) (user user' : ObjectId)
    (b b' : ProgressBody.t) (db : Db) (e : Enrollment.doc) :
  List.NoDup (map Enrollment._id (enrollments db)) ->
  In e (enrollments db) ->
  Enrollment.status e = "active" ->
  progressValidation b = [] -> castsWell b = true ->
  ProgressBody.progress b = Some (ProgressBody.num 100) ->
  progressValidation b' = [] -> castsWell b' = true ->
  let id := Id (Enrollment._id e) in
  let first := patchProgress o now user id b db in
  let second := patchProgress o now' user' id b' (fst first) in
  (forall x, Enrollment.get "certificates" x = undefined)
  /\ code (snd first) <> 200%nat
  /\ (strictQuery o = false ->
      first = (db, mkResponse 404 (JMessage "Active enrollment not found")))
  /\ (strictQuery o = true ->
      (exists err, snd first = mkResponse 400 (JFailure "Update failed" err))
      /\ findById (Enrollment._id e) (enrollments (fst first))
         = Some (progressed now b e)
      /\ Enrollment.status (progressed now b e) = "completed"
      /\ Enrollment.completedAt (progressed now b e) = Some (now 1%nat)
      /\ Enrollment.progress (progressed now b e) = 100
      /\ second
         = (fst first,
            mkResponse 404 (JMessage "Active enrollment not found"))).
Proof.
  intros Hnd Hin Hactive Hvalid Hcast Hb Hvalid' Hcast' id first second.
  assert (Hdone : Enrollment.status (progressed now b e) = "completed"
                  /\ Enrollment.completedAt (progressed now b e)
                     = Some (now 1%nat)
                  /\ Enrollment.progress (progressed now b e) = 100).
  { unfold progressed. rewrite Hb. simpl. auto. }
  assert (Hfirst : first
    = if strictQuery o
      then
        match Enrollment.updateFirst (activeById (Enrollment._id e))
                (progressed now b) (enrollments db) with
        | Some (e', docs) => (set_enrollments docs db, afterProgress o e')
        | None =>
            (db, mkResponse 404 (JMessage "Active enrollment not found"))
        end
      else (db, mkResponse 404 (JMessage "Active enrollment not found"))).
  { unfold first, id. rewrite patchProgress_unfold by assumption.
    now rewrite Hcast. }
  destruct (strictQuery o) eqn:Hsq.
  - destruct (updateFirst_at (activeById (Enrollment._id e))
                (progressed now b) (enrollments db) e Hnd Hin)
      as (pre & post & Hdocs & Hupd).
    { unfold activeById. now rewrite Hactive, String.eqb_refl. }
    { intros x Hx. eapply activeById_id; eauto. }
    rewrite Hupd in Hfirst.
    assert (Hanswer : exists err,
              afterProgress o (progressed now b e)
              = mkResponse 400 (JFailure "Update failed" err)).
    { unfold afterProgress. destruct (strictPopulate o); [eauto|].
      destruct Hdone as [-> _]. simpl. eauto. }
    assert (Hsecond : second
              = (fst first,
                 mkResponse 404 (JMessage "Active enrollment not found"))).
    { unfold second, id. rewrite patchProgress_unfold by assumption.
      rewrite Hcast', Hsq. simpl.
      assert (Hnone : Enrollment.updateFirst (activeById (Enrollment._id e))
                        (progressed now' b') (enrollments (fst first)) = None).
      { apply updateFirst_None. rewrite Hfirst. simpl. intros x Hx.
        destruct (activeById (Enrollment._id e) x) eqn:Hax; [|reflexivity].
        exfalso.
        pose proof (activeById_id _ _ Hax) as Hidx.
        pose proof (activeById_status _ _ Hax) as Hsx.
        rewrite Hdocs in Hnd.
        assert (Heq : x = progressed now b e).
        { apply (NoDup_map_In_eq Enrollment._id
                   (pre ++ progressed now b e :: post)); auto.
          - now rewrite (map_update_middle Enrollment._id pre e
                           (progressed now b e) post eq_refl).
          - apply in_or_app. right. now left. }
        subst x. destruct Hdone as [Hs _]. rewrite Hs in Hsx. discriminate. }
      now rewrite Hnone. }
    split; [reflexivity|]. split.
    + rewrite Hfirst. simpl. destruct Hanswer as (err & ->). discriminate.
    + split; [discriminate|]. intros _. split; [|split].
      * rewrite Hfirst. exact Hanswer.
      * rewrite Hfirst. simpl. rewrite Hdocs in Hnd.
        now apply findById_rewritten.
      * destruct Hdone as (Hs & Hc & Hp). auto.
  - split; [reflexivity|]. rewrite Hfirst. simpl.
    split; [discriminate|]. split; [reflexivity|discriminate].
Qed.

Lemma completion_issues_no_certificate_witness :
  code (snd (patchProgress strictSettings clock "user-1" (Id "enr-1")
               toHundred dbEnrolled)) <> 200%nat
  /\ findById "enr-1"
       (enrollments (fst (patchProgress strictSettings clock "user-1"
                            (Id "enr-1") toHundred dbEnrolled)))
     = Some (progressed clock toHundred enr1).
Proof.
  destruct (completion_issues_no_certificate strictSettings clock clock
              "user-1" "user-1" toHundred toHundred dbEnrolled enr1)
    as (_ & H200 & _ & Hstrict).
  - simpl. repeat constructor. simpl. tauto.
  - now left.
  - reflexivity.
  - reflexivity.
  - reflexivity.
  - reflexivity.
  - reflexivity.
  - reflexivity.
  - split; [exact H200|]. exact (proj1 (proj2 (Hstrict eq_refl))).
Defined.



(** ** Progress below completion *)

(** C10.  A progress update that does not complete writes the paths the
    schema has and nothing else.  When the filter reaches the active
    enrollment, the stored document keeps its status, [completedAt],
    student, course, [enrolledAt], grade, [lastAccessedAt] and
    [createdAt]; [progress] is the given number, [completedLessons] the
    given list if one is given, [updatedAt] the stamp.  [timeSpent] and
    [currentLesson] of the body leave no trace: two valid bodies that
    agree on [progress] and [completedLessons] have the same effect and
    the same answer. *)
Theorem progress_update_drops_time_and_lesson
    (o : Options) (now : nat -> Time) (user : ObjectId)
    (b b' : ProgressBody.t) (db : Db) (e : Enrollment.doc) :
  List.NoDup (map Enrollment._id (enrollments db)) ->
  In e (enrollments db) ->
  Enrollment.status e = "active" ->
  progressValidation b = [] -> castsWell b = true ->
  isHundred (ProgressBody.progress b) = false ->
  progressValidation b' = [] ->
  ProgressBody.progress b' = ProgressBody.progress b ->
  ProgressBody.completedLessons b' = ProgressBody.completedLessons b ->
  let id := Id (Enrollment._id e) in
  patchProgress o now user id b' db = patchProgress o now user id b db
  /\ (strictQuery o = true ->
      exists e1,
        findById (Enrollment._id e)
          (enrollments (fst (patchProgress o now user id b db))) = Some e1
        /\ Enrollment.status e1 = Enrollment.status e
        /\ Enrollment.completedAt e1 = Enrollment.completedAt e
        /\ Enrollment.student e1 = Enrollment.student e
        /\ Enrollment.course e1 = Enrollment.course e
        /\ Enrollment.enrolledAt e1 = Enrollment.enrolledAt e
        /\ Enrollment.grade e1 = Enrollment.grade e
        /\ Enrollment.lastAccessedAt e1 = Enrollment.lastAccessedAt e
        /\ Enrollment.createdAt e1 = Enrollment.createdAt e
        /\ Enrollment.updatedAt e1 = now 2%nat
        /\ (ProgressBody.progress b
            = Some (ProgressBody.num (Enrollment.progress e1))
            \/ ProgressBody.progress b
               = Some (ProgressBody.numeral (Enrollment.progress e1)))
        /\ (forall ids l,
              ProgressBody.completedLessons b
              = Some (ProgressBody.lessons ids) ->
              lessonIds ids = Some l ->
              Enrollment.completedLessons e1 = l)
        /\ (ProgressBody.completedLessons b = None ->
            Enrollment.completedLessons e1 = Enrollment.completedLessons e))
  /\ (strictQuery o = false ->
      patchProgress o now user id b db
      = (db, mkResponse 404 (JMessage "Active enrollment not found")))
  /\ (forall omitted,
        ProgressBody.progress omitted = None ->
        fst (patchProgress o now user id omitted db) = db
        /\ code (snd (patchProgress o now user id omitted db)) = 400%nat).
Proof.
  intros Hnd Hin Hactive Hvalid Hcast Hnot Hvalid' Hp Hl id.
  assert (Hcast' : castsWell b' = true) by (unfold castsWell in *; now rewrite Hl).
  assert (Hsame : forall d, progressed now b' d = progressed now b d).
  { intros d. unfold progressed. now rewrite Hp, Hl. }
  split; [|split; [|split]].
  - unfold id. rewrite !patchProgress_unfold by assumption.
    rewrite Hcast, Hcast'. simpl.
    destruct (strictQuery o); [|reflexivity].
    now rewrite (updateFirst_ext _ (activeById (Enrollment._id e))
                   (progressed now b') (progressed now b)
                   (enrollments db) (fun _ => eq_refl) Hsame).
  - intros Hsq. unfold id. rewrite patchProgress_unfold by assumption.
    rewrite Hcast, Hsq. simpl.
    destruct (updateFirst_at (activeById (Enrollment._id e))
                (progressed now b) (enrollments db) e Hnd Hin)
      as (pre & post & Hdocs & Hupd).
    { unfold activeById. now rewrite Hactive, String.eqb_refl. }
    { intros x Hx. eapply activeById_id; eauto. }
    rewrite Hupd. simpl. exists (progressed now b e).
    split.
    { rewrite Hdocs in Hnd. now apply findById_rewritten. }
    unfold progressed. rewrite Hnot. simpl.
    repeat (split; [reflexivity|]).
    split; [|split].
    + unfold progressValidation in Hvalid.
      destruct (ProgressBody.progress b) as [[n|n|]|]; auto; discriminate.
    + intros ids l Hids Hlids. now rewrite Hids, Hlids.
    + intros Hnone. now rewrite Hnone.
  - intros Hsq. unfold id. rewrite patchProgress_unfold by assumption.
    now rewrite Hcast, Hsq.
  - intros omitted Hnone. rewrite patchProgress_invalid.
    + split; reflexivity.
    + unfold progressValidation. rewrite Hnone. discriminate.
Qed.

(** The same update with thirty minutes and a current lesson. *)
Definition toFortyWithTime : ProgressBody.t :=
  ProgressBody.mk (Some (ProgressBody.num 40)) None
                  (Some (ProgressBody.num 30)) (Some "lesson-3").

Lemma progress_update_drops_time_and_lesson_witness :
  patchProgress strictSettings clock "user-1" (Id "enr-1") toFortyWithTime
    dbEnrolled
  = patchProgress strictSettings clock "user-1" (Id "enr-1") toForty
      dbEnrolled.
Proof.
  refine (proj1 (progress_update_drops_time_and_lesson strictSettings clock
                   "user-1" toForty toFortyWithTime dbEnrolled enr1
                   _ _ _ _ _ _ _ _ _)).
  - simpl. repeat constructor. simpl. tauto.
  - now left.
  - reflexivity.
  - reflexivity.
  - reflexivity.
  - reflexivity.
  - reflexivity.
  - reflexivity.
  - reflexivity.
Defined.

(** ** Status changes *)

(** Two enrollments that differ at most in their status. *)
Definition sameButStatus (e e' : Enrollment.doc) : Prop :=
  Enrollment.set_status "" e = Enrollment.set_status "" e'.

Lemma sameButStatus_refl e : sameButStatus e e.
Proof. reflexivity. Qed.

Lemma sameButStatus_id e e' :
  sameButStatus e e' -> Enrollment._id e = Enrollment._id e'.
Proof.
  unfold sameButStatus. intros H.
  exact (f_equal Enrollment._id H).
Qed.

Lemma restated_same stamp s e e' :
  sameButStatus e e' -> restated stamp s e = restated stamp s e'.
Proof.
  unfold sameButStatus, restated. destruct e, e'. simpl. intros H.
  inversion H; subst. reflexivity.
Qed.

Lemma restated_sameButStatus stamp s e :
  sameButStatus (Enrollment.set_updatedAt stamp e) (restated stamp s e).
Proof. destruct e. reflexivity. Qed.

Lemma updateFirst_pairwise p upd docs docs' :
  Forall2 sameButStatus docs docs' ->
  (forall e e', sameButStatus e e' -> p e = p e') ->
  (forall e e', sameButStatus e e' -> upd e = upd e') ->
  match Enrollment.updateFirst p upd docs,
        Enrollment.updateFirst p upd docs' with
  | Some (a, l), Some (a', l') => a = a' /\ Forall2 sameButStatus l l'
  | None, None => True
  | _, _ => False
  end.
Proof.
  intros H Hp Hupd. induction H as [|x y l l' Hxy Hl IH]; simpl; [exact I|].
  rewrite <- (Hp x y Hxy). destruct (p x).
  - rewrite (Hupd x y Hxy). split; [reflexivity|].
    constructor; [apply sameButStatus_refl|assumption].
  - destruct (Enrollment.updateFirst p upd l) as [[a r]|],
             (Enrollment.updateFirst p upd l') as [[a' r']|]; try contradiction.
    + destruct IH as [-> IH]. split; [reflexivity|]. now constructor.
    + exact I.
Qed.

(** enr-1 of user-1, completed, asked to become active again: under
    [strictQuery] the status is stored; without it the request is answered
    "Enrollment not found", and so is the legal change of the active
    enr-1 to suspended.  In no case is a transition refused. *)
Lemma completed_to_active_accepted :
  (forall populateStrictly,
     findById "enr-1"
       (enrollments (fst (patchStatus (mkOptions true populateStrictly) clock
                            "user-1" (Id "enr-1") "active" dbCompleted)))
     = Some (restated (clock 1%nat) "active" enr1Completed))
  /\ (forall populateStrictly,
        patchStatus (mkOptions false populateStrictly) clock
          "user-1" (Id "enr-1") "active" dbCompleted
        = (dbCompleted, mkResponse 404 (JMessage "Enrollment not found"))
        /\ patchStatus (mkOptions false populateStrictly) clock
             "user-1" (Id "enr-1") "suspended" dbEnrolled
           = (dbEnrolled, mkResponse 404 (JMessage "Enrollment not found"))).
Proof.
  split; intros []; try reflexivity; split; reflexivity.
Qed.

(** C3.  The status route validates the requested status and nothing
    else.  A status other than active, suspended or cancelled is refused
    with "Invalid status" and nothing is written.  For every request, the
    answer and the write are the same whatever the current statuses of
    the stored enrollments are; and an enrollment the request rewrites is
    stored with the requested status. *)
Theorem set_status_ignores_current_status
    (o : Options) (now : nat -> Time) (user : ObjectId) (id : IdParam)
    (status : string) (db db' : Db) :
  Forall2 sameButStatus (enrollments db) (enrollments db') ->
  (includes validStatuses status = false ->
   patchStatus o now user id status db
   = (db, mkResponse 400 (JMessage "Invalid status")))
  /\ snd (patchStatus o now user id status db)
     = snd (patchStatus o now user id status db')
  /\ Forall2 sameButStatus
       (enrollments (fst (patchStatus o now user id status db)))
       (enrollments (fst (patchStatus o now user id status db')))
  /\ (forall e,
        In e (enrollments (fst (patchStatus o now user id status db))) ->
        In e (enrollments db) \/ Enrollment.status e = status).
Proof.
  intros Hdb. rewrite !patchStatus_unfold.
  destruct (includes validStatuses status) eqn:Hs; simpl;
    [|split; [reflexivity|]; split; [reflexivity|]; split; auto].
  split; [discriminate|].
  destruct id as [i|raw];
    [|split; [reflexivity|]; split; auto].
  destruct (strictQuery o);
    [|split; [reflexivity|]; split; auto].
  pose proof (updateFirst_pairwise (byId i) (restated (now 1%nat) status)
                (enrollments db) (enrollments db') Hdb) as Hpair.
  destruct (Enrollment.updateFirst (byId i) _ (enrollments db))
    as [[a l]|] eqn:Hupd;
    destruct (Enrollment.updateFirst (byId i) _ (enrollments db'))
      as [[a' l']|] eqn:Hupd'; simpl.
  - destruct Hpair as [-> Hl].
    + intros e e' H. unfold byId. now rewrite (sameButStatus_id e e' H).
    + intros e e' H. now apply restated_same.
    + split; [reflexivity|]. split; [assumption|].
      intros e He.
      apply updateFirst_Some in Hupd as (pre & d & post & -> & _ & _ & Ha & ->).
      apply in_app_or in He as [He|[<-|He]].
      * left. apply in_or_app. now left.
      * right. reflexivity.
      * left. apply in_or_app. right. now right.
  - exfalso. apply Hpair.
    + intros e e' H. unfold byId. now rewrite (sameButStatus_id e e' H).
    + intros e e' H. now apply restated_same.
  - exfalso. apply Hpair.
    + intros e e' H. unfold byId. now rewrite (sameButStatus_id e e' H).
    + intros e e' H. now apply restated_same.
  - split; [reflexivity|]. split; auto.
Qed.

Lemma set_status_ignores_current_status_witness :
  snd (patchStatus strictSettings clock "user-1" (Id "enr-1") "active"
         (mkDb [Enrollment.set_status "completed" enr1] catalogue []))
  = snd (patchStatus strictSettings clock "user-1" (Id "enr-1") "active"
           dbEnrolled).
Proof.
  refine (proj1 (proj2 (set_status_ignores_current_status strictSettings clock
                          "user-1" (Id "enr-1") "active"
                          (mkDb [Enrollment.set_status "completed" enr1]
                                catalogue [])
                          dbEnrolled _))).
  simpl. repeat constructor.
Defined.

(** ** Cancellation *)

Lemma updateFirst_ids p upd docs e' docs' :
  (forall d, Enrollment._id (upd d) = Enrollment._id d) ->
  Enrollment.updateFirst p upd docs = Some (e', docs') ->
  map Enrollment._id docs' = map Enrollment._id docs.
Proof.
  intros Hid H.
  apply updateFirst_Some in H as (pre & d & post & -> & _ & _ & _ & ->).
  now apply map_update_middle.
Qed.

(** C6.  Neither route that cancels an enrollment changes a course.  The
    status route never addresses the Course collection; DELETE /:id
    increments [enrollmentCount], which is not a path of the Course
    schema, so its update writes nothing.  Both keep the record: the
    stored [_id]s are the same, and under [strictQuery] the enrollment
    with the given [_id] is stored as cancelled. *)
Theorem cancelling_leaves_the_course_unchanged
    (o : Options) (now : nat -> Time) (user : ObjectId) (id : IdParam)
    (db : Db) :
  let viaStatus := patchStatus o now user id "cancelled" db in
  let viaDelete := deleteEnrollment o now user id db in
  courses (fst viaStatus) = courses db
  /\ courses (fst viaDelete) = courses db
  /\ map Enrollment._id (enrollments (fst viaStatus))
     = map Enrollment._id (enrollments db)
  /\ map Enrollment._id (enrollments (fst viaDelete))
     = map Enrollment._id (enrollments db)
  /\ (forall c, Course.get "enrollmentCount" c = undefined)
  /\ (forall e,
        strictQuery o = true ->
        List.NoDup (map Enrollment._id (enrollments db)) ->
        In e (enrollments db) ->
        id = Id (Enrollment._id e) ->
        findById (Enrollment._id e) (enrollments (fst viaStatus))
        = Some (restated (now 1%nat) "cancelled" e)
        /\ findById (Enrollment._id e) (enrollments (fst viaDelete))
           = Some (unenrolled (now 2%nat) e)).
Proof.
  intros viaStatus viaDelete. unfold viaStatus, viaDelete.
  rewrite patchStatus_unfold, deleteEnrollment_unfold. simpl negb. cbv iota.
  split; [|split; [|split; [|split; [|split]]]].
  - destruct id as [i|raw]; [|reflexivity].
    destruct (strictQuery o); [|reflexivity].
    destruct (Enrollment.updateFirst _ _ _) as [[e' docs]|]; reflexivity.
  - destruct id as [i|raw]; [|reflexivity].
    destruct (strictQuery o); [|reflexivity].
    destruct (Enrollment.updateFirst _ _ _) as [[e' docs]|]; reflexivity.
  - destruct id as [i|raw]; [|reflexivity].
    destruct (strictQuery o); [|reflexivity].
    destruct (Enrollment.updateFirst _ _ _) as [[e' docs]|] eqn:Hupd;
      [|reflexivity].
    simpl. eapply updateFirst_ids; [|exact Hupd]. reflexivity.
  - destruct id as [i|raw]; [|reflexivity].
    destruct (strictQuery o); [|reflexivity].
    destruct (Enrollment.updateFirst _ _ _) as [[e' docs]|] eqn:Hupd;
      [|reflexivity].
    simpl. eapply updateFirst_ids; [|exact Hupd]. reflexivity.
  - reflexivity.
  - intros e Hsq Hnd Hin ->. rewrite Hsq. split.
    + destruct (updateFirst_at (byId (Enrollment._id e))
                  (restated (now 1%nat) "cancelled") (enrollments db) e
                  Hnd Hin (byId_refl e))
        as (pre & post & Hdocs & ->).
      { intros x Hx. now apply byId_id. }
      simpl. rewrite Hdocs in Hnd. now apply findById_rewritten.
    + destruct (updateFirst_at (byId (Enrollment._id e))
                  (unenrolled (now 2%nat)) (enrollments db) e
                  Hnd Hin (byId_refl e))
        as (pre & post & Hdocs & ->).
      { intros x Hx. now apply byId_id. }
      simpl. rewrite Hdocs in Hnd. now apply findById_rewritten.
Qed.

Lemma cancelling_leaves_the_course_unchanged_witness :
  findById "enr-1"
    (enrollments (fst (patchStatus strictSettings clock "user-1" (Id "enr-1")
                         "cancelled" dbEnrolled)))
  = Some (restated (clock 1%nat) "cancelled" enr1)
  /\ findById "enr-1"
       (enrollments (fst (deleteEnrollment strictSettings clock "user-1"
                            (Id "enr-1") dbEnrolled)))
     = Some (unenrolled (clock 2%nat) enr1).
Proof.
  apply (proj2 (proj2 (proj2 (proj2 (proj2
           (cancelling_leaves_the_course_unchanged strictSettings clock
              "user-1" (Id "enr-1") dbEnrolled))))) enr1).
  - reflexivity.
  - simpl. repeat constructor. simpl. tauto.
  - now left.
  - reflexivity.
Defined.

(** ** Review aggregates *)

(** The ratings the specification averages: those of the approved reviews
    of the course. *)
Definition approvedRatings (courseId : ObjectId) (docs : list Review.doc)
    : list Q :=
  map Review.rating
      (List.filter
         (fun r => String.eqb (Review.course r) courseId && Review.isApproved r)
         docs).

Fixpoint total (l : list Q) : Q :=
  match l with
  | [] => 0
  | x :: rest => x + total rest
  end.

(** The mean of a list of ratings; it is 0 for the empty list, since
    division by zero yields 0 in [Q]. *)
Definition mean (l : list Q) : Q := total l / inject_Z (Z.of_nat (length l)).

Lemma fold_accumulate courseId rs : forall g,
  key g = courseId ->
  Forall (fun r => Review.course r = courseId) rs ->
  exists sum,
    fold_left (fun groups r => accumulate r groups) rs [g]
    = [mkAccumulator courseId sum
         (ratingCount g + Z.of_nat (length rs))
         (ones g + Z.of_nat (length rs))]
    /\ Qeq sum (ratingSum g + total (map Review.rating rs)).
Proof.
  induction rs as [|r rs IH]; intros g Hg Hall.
  - exists (ratingSum g). simpl. rewrite !Z.add_0_r, <- Hg. split.
    + now destruct g.
    + now rewrite Qplus_0_r.
  - inversion Hall as [|? ? Hr Hrs]; subst. simpl fold_left.
    rewrite Hr, String.eqb_refl.
    destruct (IH (mkAccumulator (key g) (ratingSum g + Review.rating r)
                                (ratingCount g + 1) (ones g + 1))
                 eq_refl Hrs) as (sum & Hfold & Hsum).
    exists sum. rewrite Hfold. simpl. split.
    + f_equal. f_equal; lia.
    + rewrite Hsum. simpl. now rewrite Qplus_assoc.
Qed.

Lemma matched_course courseId docs :
  Forall (fun r => Review.course r = courseId)
         (List.filter
            (fun r => String.eqb (Review.course r) courseId
                      && Review.isApproved r) docs).
Proof.
  apply List.Forall_forall. intros r Hr. apply filter_In in Hr as [_ Hr].
  apply andb_prop in Hr as [Hr _]. now apply String.eqb_eq.
Qed.

(** What the aggregation pipeline and the two [|| 0] hand to the update. *)
Lemma aggregate_mean courseId docs :
  Qeq (averageOrZero (aggregate courseId docs))
      (mean (approvedRatings courseId docs))
  /\ totalOrZero (aggregate courseId docs)
     = Z.of_nat (length (approvedRatings courseId docs)).
Proof.
  unfold aggregate, approvedRatings, mean. rewrite length_map.
  pose proof (matched_course courseId docs) as Hall.
  destruct (List.filter _ docs) as [|r rs].
  - simpl. split; reflexivity.
  - inversion Hall as [|? ? Hr Hrs]; subst. simpl fold_left.
    destruct (fold_accumulate (Review.course r) rs
                (mkAccumulator (Review.course r) (Review.rating r) 1 1)
                eq_refl Hrs) as (sum & Hfold & Hsum).
    rewrite Hfold. simpl map. simpl averageOrZero. simpl totalOrZero.
    simpl ratingCount in *. simpl ones in *. simpl ratingSum in *.
    replace (1 + Z.of_nat (length rs)) with (Z.of_nat (length (r :: rs)))
      by (simpl length; lia).
    split; [|reflexivity].
    rewrite Hsum. reflexivity.
Qed.

(** C7.  A review that is saved or removed leaves every course as it was:
    [averageRating] and [totalReviews] are not paths of the Course schema,
    so the update of the recalculation writes nothing and no course
    document exposes either value.  The aggregation itself yields the mean
    and the number of the approved reviews; they are lost with the
    update. *)
Theorem review_write_leaves_course_unchanged
    (h : StoreHealth) (r : Review.doc) (db : Db) :
  courses (fst (saveReview h r db)) = courses db
  /\ courses (fst (removeReview h r db)) = courses db
  /\ (forall c, Course.get "averageRating" c = undefined
                /\ Course.get "totalReviews" c = undefined)
  /\ (forall courseId docs,
        Qeq (averageOrZero (aggregate courseId docs))
            (mean (approvedRatings courseId docs))
        /\ totalOrZero (aggregate courseId docs)
           = Z.of_nat (length (approvedRatings courseId docs))).
Proof.
  split; [|split; [|split]].
  - unfold saveReview.
    destruct (reviewValid r); simpl; [|reflexivity].
    destruct (reviewClash r (reviews db)); simpl; [reflexivity|].
    destruct (getAverageRating h _ _) as [db2 rc] eqn:E. simpl.
    change db2 with (fst (db2, rc)). rewrite <- E.
    now rewrite (proj2 (proj2 (getAverageRating_frame _ _ _))).
  - unfold removeReview.
    destruct (getAverageRating h _ _) as [db2 rc] eqn:E. simpl.
    change db2 with (fst (db2, rc)). rewrite <- E.
    now rewrite (proj2 (proj2 (getAverageRating_frame _ _ _))).
  - intros c. split; reflexivity.
  - intros courseId docs. apply aggregate_mean.
Qed.

Definition review1 : Review.doc :=
  Review.mk "rev-1" "course-A" "user-1" 4 "clear and well paced" true 0.

Definition review2 : Review.doc :=
  Review.mk "rev-2" "course-A" "user-2" 5 "excellent" true 0.

(** course-A has one approved review, rated 4. *)
Definition dbReviewed : Db :=
  run strictSettings (initial catalogue) [SaveReview healthy review1].

(** A failing course update is caught and logged: the write reports
    success, the promise of the recalculation is fulfilled, and the
    aggregates keep their previous values. *)
Lemma update_failure_is_swallowed h courseId db :
  aggregateFails h = false -> updateFails h = true ->
  getAverageRating h courseId db
  = (db, mkRecalculation Fulfilled ["update failed"]).
Proof. intros Ha Hu. unfold getAverageRating. now rewrite Ha, Hu. Qed.

(** A failing aggregation is not caught: nothing is logged and the promise
    the hook dropped is rejected. *)
Lemma aggregate_failure_escapes h courseId db :
  aggregateFails h = true ->
  getAverageRating h courseId db
  = (db, mkRecalculation (Rejected "aggregate failed") []).
Proof. intros Ha. unfold getAverageRating. now rewrite Ha. Qed.

(** C8.  Saving review2 while the aggregation query fails: the save itself
    reports success and the aggregates stay stale, but the failure is
    neither caught nor logged, for the aggregation is awaited outside the
    [try] block; the recalculation's promise is rejected with no handler.
    The same save with a failing course update is caught and logged. *)
Theorem aggregate_failure_is_not_caught :
  snd (saveReview (mkStoreHealth true false) review2 dbReviewed)
  = mkWriteOutcome Fulfilled
      (Some (mkRecalculation (Rejected "aggregate failed") []))
  /\ courses (fst (saveReview (mkStoreHealth true false) review2 dbReviewed))
     = courses dbReviewed
  /\ snd (removeReview (mkStoreHealth true false) review1 dbReviewed)
     = mkWriteOutcome Fulfilled
         (Some (mkRecalculation (Rejected "aggregate failed") []))
  /\ snd (saveReview (mkStoreHealth false true) review2 dbReviewed)
     = mkWriteOutcome Fulfilled
         (Some (mkRecalculation Fulfilled ["update failed"]))
  /\ courses (fst (saveReview (mkStoreHealth false true) review2 dbReviewed))
     = courses dbReviewed.
Proof. vm_compute. auto 10. Qed.

(** ** The stored reviews *)

Definition reviewKey (r : Review.doc) : ObjectId * ObjectId :=
  (Review.course r, Review.user r).

(** Every stored review passed validation, and the [_id] index and the
    unique index on (course, user) hold. *)
Record reviewsWf (rs : list Review.doc) : Prop := mkReviewsWf {
  rw_valid : Forall (fun r => reviewValid r = true) rs;
  rw_ids : List.NoDup (map Review._id rs);
  rw_keys : List.NoDup (map reviewKey rs)
}.

Lemma upsert_shape r docs :
  (exists pre d post,
     docs = pre ++ d :: post
     /\ Review._id d = Review._id r
     /\ ~ In (Review._id r) (map Review._id pre)
     /\ upsert r docs = pre ++ r :: post)
  \/ (~ In (Review._id r) (map Review._id docs)
      /\ upsert r docs = docs ++ [r]).
Proof.
  induction docs as [|x docs IH]; simpl.
  - right. split; [tauto|reflexivity].
  - destruct (String.eqb_spec (Review._id x) (Review._id r)) as [Heq|Hne].
    + left. exists [], x, docs. simpl. auto.
    + destruct IH as [(pre & d & post & -> & Hd & Hpre & Hup)|[Hnot Hup]].
      * left. exists (x :: pre), d, post. simpl. rewrite Hup.
        repeat split; auto. intros [H|H]; auto.
      * right. rewrite Hup. split; [|reflexivity]. intros [H|H]; auto.
Qed.

Lemma NoDup_insert_middle {A} (a : A) (l l' : list A) :
  List.NoDup (l ++ l') -> ~ In a (l ++ l') -> List.NoDup (l ++ a :: l').
Proof.
  induction l as [|x l IH]; simpl; intros Hnd Hnot.
  - now constructor.
  - inversion Hnd as [|? ? Hx Hnd']; subst. constructor.
    + intros Hin. apply in_app_or in Hin as [Hin|[<-|Hin]].
      * apply Hx. apply in_or_app. now left.
      * apply Hnot. now left.
      * apply Hx. apply in_or_app. now right.
    + apply IH; [assumption|]. intros Hin. apply Hnot. now right.
Qed.

Lemma NoDup_map_filter {A B} (f : A -> B) (p : A -> bool) (l : list A) :
  List.NoDup (map f l) -> List.NoDup (map f (List.filter p l)).
Proof.
  induction l as [|x l IH]; simpl; intros Hnd; [constructor|].
  inversion Hnd as [|? ? Hx Hnd']; subst.
  destruct (p x); simpl; [|auto].
  constructor; [|auto]. intros Hin. apply Hx.
  apply in_map_iff in Hin as (y & Hy & Hin). apply filter_In in Hin as [Hin _].
  apply in_map_iff. eauto.
Qed.

Lemma reviewClash_false r docs x :
  reviewClash r docs = false -> In x docs ->
  Review._id x <> Review._id r -> reviewKey x <> reviewKey r.
Proof.
  unfold reviewClash. intros Hc Hin Hid Hkey.
  assert (existsb
            (fun d => negb (String.eqb (Review._id d) (Review._id r))
                      && String.eqb (Review.course d) (Review.course r)
                      && String.eqb (Review.user d) (Review.user r))
            docs = true); [|congruence].
  apply existsb_exists. exists x. split; [assumption|].
  unfold reviewKey in Hkey. inversion Hkey as [[Hco Hus]].
  rewrite Hco, Hus, !String.eqb_refl.
  destruct (String.eqb_spec (Review._id x) (Review._id r)); [contradiction|].
  reflexivity.
Qed.

Lemma reviewsWf_upsert r docs :
  reviewValid r = true -> reviewClash r docs = false ->
  reviewsWf docs -> reviewsWf (upsert r docs).
Proof.
  intros Hvalid Hclash [Hv Hids Hkeys].
  destruct (upsert_shape r docs)
    as [(pre & d & post & -> & Hd & Hpre & ->)|[Hnot ->]].
  - assert (Hother : forall x, In x (pre ++ post) ->
                               Review._id x <> Review._id r).
    { intros x Hx Heq. rewrite map_app in Hids. simpl in Hids.
      apply NoDup_remove_2 in Hids. apply Hids.
      rewrite Hd, <- Heq, <- map_app. now apply in_map. }
    constructor.
    + apply Forall_app in Hv as [Hv1 Hv2]. apply Forall_app. split; [auto|].
      inversion Hv2; subst. now constructor.
    + rewrite map_app in *. simpl in *. now rewrite <- Hd.
    + rewrite map_app in *. simpl in *.
      apply NoDup_insert_middle; [eapply NoDup_remove_1; eauto|].
      rewrite <- map_app. intros Hin.
      apply in_map_iff in Hin as (x & Hx & Hin).
      apply (reviewClash_false r (pre ++ d :: post) x Hclash); auto.
      apply in_app_or in Hin as [Hin|Hin]; apply in_or_app;
        [now left|right; now right].
  - constructor.
    + apply Forall_app. split; [assumption|]. now repeat constructor.
    + rewrite map_app. simpl. apply NoDup_insert_middle.
      * now rewrite app_nil_r.
      * now rewrite app_nil_r.
    + rewrite map_app. simpl. apply NoDup_insert_middle.
      * now rewrite app_nil_r.
      * rewrite app_nil_r. intros Hin.
        apply in_map_iff in Hin as (x & Hx & Hin).
        apply (reviewClash_false r docs x Hclash); auto.
        intros Heq. apply Hnot. rewrite <- Heq. now apply in_map.
Qed.

Lemma getAverageRating_reviews h courseId db :
  reviews (fst (getAverageRating h courseId db)) = reviews db.
Proof. apply getAverageRating_frame. Qed.

Lemma saveReview_reviews h r db :
  reviews (fst (saveReview h r db))
  = if reviewValid r && negb (reviewClash r (reviews db))
    then upsert r (reviews db) else reviews db.
Proof.
  unfold saveReview.
  destruct (reviewValid r); simpl; [|reflexivity].
  destruct (reviewClash r (reviews db)); simpl; [reflexivity|].
  destruct (getAverageRating h _ _) as [db2 rc] eqn:E. simpl.
  change db2 with (fst (db2, rc)). rewrite <- E.
  now rewrite getAverageRating_reviews.
Qed.

Lemma removeReview_reviews h r db :
  reviews (fst (removeReview h r db))
  = List.filter (fun d => negb (String.eqb (Review._id d) (Review._id r)))
                (reviews db).
Proof.
  unfold removeReview.
  destruct (getAverageRating h _ _) as [db2 rc] eqn:E. simpl.
  change db2 with (fst (db2, rc)). rewrite <- E.
  now rewrite getAverageRating_reviews.
Qed.

(** The enrollment routes leave the reviews alone. *)
Lemma step_reviews o db op :
  match op with
  | SaveReview _ _ | RemoveReview _ _ => True
  | _ => reviews (step o db op) = reviews db
  end.
Proof.
  destruct op; simpl; auto.
  - now rewrite postEnrollment_unfold.
  - destruct (progressValidation b) as [|err errs] eqn:Hvalid.
    + rewrite patchProgress_unfold by assumption.
      destruct id as [i|raw]; [|reflexivity].
      destruct (castsWell b); simpl; [|reflexivity].
      destruct (strictQuery o); [|reflexivity].
      destruct (Enrollment.updateFirst _ _ _) as [[? ?]|]; reflexivity.
    + now rewrite patchProgress_invalid by (rewrite Hvalid; discriminate).
  - rewrite patchStatus_unfold.
    destruct (includes validStatuses status); simpl; [|reflexivity].
    destruct id as [i|raw]; [|reflexivity].
    destruct (strictQuery o); [|reflexivity].
    destruct (Enrollment.updateFirst _ _ _) as [[? ?]|]; reflexivity.
  - rewrite deleteEnrollment_unfold.
    destruct id as [i|raw]; [|reflexivity].
    destruct (strictQuery o); [|reflexivity].
    destruct (Enrollment.updateFirst _ _ _) as [[? ?]|]; reflexivity.
Qed.

Lemma reviewsWf_step o db op :
  reviewsWf (reviews db) -> reviewsWf (reviews (step o db op)).
Proof.
  intros Hwf. pose proof (step_reviews o db op) as Hkeep.
  destruct op; try (rewrite Hkeep; exact Hwf).
  - simpl. rewrite saveReview_reviews.
    destruct (reviewValid r) eqn:Hv; simpl; [|assumption].
    destruct (reviewClash r (reviews db)) eqn:Hc; simpl; [assumption|].
    now apply reviewsWf_upsert.
  - simpl. rewrite removeReview_reviews. destruct Hwf as [Hv Hids Hkeys].
    constructor.
    + apply List.Forall_forall. intros x Hx. apply filter_In in Hx as [Hx _].
      rewrite List.Forall_forall in Hv. now apply Hv.
    + now apply NoDup_map_filter.
    + now apply NoDup_map_filter.
Qed.

Lemma reachable_reviewsWf db : reachable db -> reviewsWf (reviews db).
Proof.
  intros (o & cs & ops & <-).
  assert (Hgen : forall ops db0, reviewsWf (reviews db0) ->
                                 reviewsWf (reviews (run o db0 ops))).
  { clear ops. induction ops as [|op ops IH]; intros db0 H; simpl; auto.
    apply IH. now apply reviewsWf_step. }
  apply Hgen. constructor; simpl; constructor.
Qed.

Lemma NoDup_key_at_most_one {A B} (f : A -> B) (p : A -> bool) (k : B)
    (l : list A) :
  List.NoDup (map f l) -> (forall x, p x = true -> f x = k) ->
  (length (List.filter p l) <= 1)%nat.
Proof.
  intros Hnd Hk. induction l as [|x l IH]; simpl; [lia|].
  inversion Hnd as [|? ? Hx Hnd']; subst.
  destruct (p x) eqn:Hp; [|auto]. simpl.
  destruct (List.filter p l) as [|y rest] eqn:Hf; [simpl; lia|].
  exfalso. apply Hx.
  assert (Hy : In y (List.filter p l)) by (rewrite Hf; now left).
  apply filter_In in Hy as [Hy Hpy].
  rewrite (Hk x Hp), <- (Hk y Hpy). now apply in_map.
Qed.

(** X17.  In every reachable store a student has at most one review per
    course, and saving a further review of the same course by the same
    student under a new [_id] is rejected: nothing is stored and no
    recalculation is started. *)
Theorem one_review_per_student_and_course (db : Db) :
  reachable db ->
  (forall course user,
     (length (List.filter
                (fun r => String.eqb (Review.course r) course
                          && String.eqb (Review.user r) user)
                (reviews db)) <= 1)%nat)
  /\ (forall h r d,
        In d (reviews db) ->
        Review.course d = Review.course r ->
        Review.user d = Review.user r ->
        Review._id d <> Review._id r ->
        fst (saveReview h r db) = db
        /\ hook (snd (saveReview h r db)) = None
        /\ exists reason, written (snd (saveReview h r db)) = Rejected reason).
Proof.
  intros Hreach. pose proof (reachable_reviewsWf db Hreach) as [_ _ Hkeys].
  split.
  - intros course user.
    apply (NoDup_key_at_most_one reviewKey _ (course, user)); [assumption|].
    intros x Hx. apply andb_prop in Hx as [Hc Hu].
    apply String.eqb_eq in Hc, Hu. unfold reviewKey. now rewrite Hc, Hu.
  - intros h r d Hin Hc Hu Hid. unfold saveReview.
    destruct (reviewValid r); simpl; [|eauto].
    assert (Hclash : reviewClash r (reviews db) = true).
    { unfold reviewClash. apply existsb_exists. exists d.
      split; [assumption|]. rewrite Hc, Hu, !String.eqb_refl.
      destruct (String.eqb_spec (Review._id d) (Review._id r));
        [contradiction|reflexivity]. }
    rewrite Hclash. simpl. eauto.
Qed.

Lemma one_review_per_student_and_course_witness :
  (length (List.filter
             (fun r => String.eqb (Review.course r) "course-A"
                       && String.eqb (Review.user r) "user-1")
             (reviews dbReviewed)) <= 1)%nat
  /\ fst (saveReview healthy
            (Review.mk "rev-9" "course-A" "user-1" 2 "second thoughts" true 0)
            dbReviewed) = dbReviewed.
Proof.
  assert (Hreach : reachable dbReviewed).
  { exists strictSettings, catalogue, [SaveReview healthy review1].
    reflexivity. }
  destruct (one_review_per_student_and_course dbReviewed Hreach) as [H1 H2].
  split; [apply H1|].
  apply (H2 healthy
            (Review.mk "rev-9" "course-A" "user-1" 2 "second thoughts" true 0)
            review1).
  - vm_compute. left. reflexivity.
  - reflexivity.
  - reflexivity.
  - discriminate.
Defined.

Lemma total_bounds (l : list Q) :
  Forall (fun x => (1 <= x)%Q /\ (x <= 5)%Q) l ->
  (inject_Z (Z.of_nat (length l)) <= total l)%Q
  /\ (total l <= 5 * inject_Z (Z.of_nat (length l)))%Q.
Proof.
  induction 1 as [|x l [Hlo Hhi] Hall [IHlo IHhi]].
  - simpl. split; [apply Qle_refl|]. unfold Qle. simpl. lia.
  - simpl length. rewrite Nat2Z.inj_succ, <- Z.add_1_l, inject_Z_plus.
    simpl total. split.
    + apply Qplus_le_compat; assumption.
    + rewrite Qmult_plus_distr_r. apply Qplus_le_compat; [|assumption].
      now rewrite Qmult_1_r.
Qed.

Lemma mean_bounds (l : list Q) :
  Forall (fun x => (1 <= x)%Q /\ (x <= 5)%Q) l -> l <> [] ->
  (1 <= mean l)%Q /\ (mean l <= 5)%Q.
Proof.
  intros Hall Hne. destruct (total_bounds l Hall) as [Hlo Hhi].
  assert (Hpos : (0 < inject_Z (Z.of_nat (length l)))%Q).
  { destruct l; [congruence|]. simpl length.
    rewrite <- (Zlt_Qlt 0). lia. }
  unfold mean. split.
  - apply Qle_shift_div_l; [assumption|]. now rewrite Qmult_1_l.
  - apply Qle_shift_div_r; assumption.
Qed.

Lemma approvedRatings_valid courseId rs :
  Forall (fun r => reviewValid r = true) rs ->
  Forall (fun x => (1 <= x)%Q /\ (x <= 5)%Q) (approvedRatings courseId rs).
Proof.
  intros Hv. unfold approvedRatings. apply List.Forall_forall. intros x Hx.
  apply in_map_iff in Hx as (r & <- & Hr). apply filter_In in Hr as [Hr _].
  rewrite List.Forall_forall in Hv. specialize (Hv r Hr).
  unfold reviewValid in Hv.
  apply andb_prop in Hv as [Hv _]. apply andb_prop in Hv as [Hv _].
  apply andb_prop in Hv as [Hlo Hhi].
  split; now apply Qle_bool_iff.
Qed.


(** X18.  In a reachable store the two values a recalculation computes
    for its update, [result[0]?.averageRating || 0] and
    [result[0]?.totalReviews || 0], are 0 and 0 when the course has no
    approved review, and otherwise an average between 1 and 5 and a count
    of at least 1. *)
Theorem recomputed_rating_is_bounded (courseId : ObjectId) (db : Db) :
  reachable db ->
  let result := aggregate courseId (reviews db) in
  (approvedRatings courseId (reviews db) = []
   /\ Qeq (averageOrZero result) 0 /\ totalOrZero result = 0)
  \/ (approvedRatings courseId (reviews db) <> []
      /\ (1 <= averageOrZero result)%Q
      /\ (averageOrZero result <= 5)%Q
      /\ 1 <= totalOrZero result).
Proof.
  intros Hreach result.
  pose proof (reachable_reviewsWf db Hreach) as [Hvalid _ _].
  destruct (aggregate_mean courseId (reviews db)) as [Havg Htot].
  fold result in Havg, Htot.
  destruct (approvedRatings courseId (reviews db)) as [|x xs] eqn:Hl.
  - left. split; [reflexivity|]. rewrite Havg, Htot. split; reflexivity.
  - right. split; [discriminate|].
    destruct (mean_bounds (x :: xs)) as [Hlo Hhi].
    { rewrite <- Hl. now apply approvedRatings_valid. }
    { discriminate. }
    rewrite Havg. repeat split; auto. rewrite Htot. simpl length. lia.
Qed.

Lemma recomputed_rating_is_bounded_witness :
  (approvedRatings "course-A" (reviews dbReviewed) = []
   /\ Qeq (averageOrZero (aggregate "course-A" (reviews dbReviewed))) 0
   /\ totalOrZero (aggregate "course-A" (reviews dbReviewed)) = 0)
  \/ (approvedRatings "course-A" (reviews dbReviewed) <> []
      /\ (1 <= averageOrZero (aggregate "course-A" (reviews dbReviewed)))%Q
      /\ (averageOrZero (aggregate "course-A" (reviews dbReviewed)) <= 5)%Q
      /\ 1 <= totalOrZero (aggregate "course-A" (reviews dbReviewed))).
Proof.
  apply (recomputed_rating_is_bounded "course-A" dbReviewed).
  exists strictSettings, catalogue, [SaveReview healthy review1].
  reflexivity.
Defined.

(** * Further properties of the enrollment router *)

(** X1.  The four routes that address an enrollment by [_id] do not check
    who calls: for any two callers the answer and the effect on the store
    are the same.  The [userId] condition of their filters is removed
    under [strictQuery] and met by no stored enrollment otherwise. *)
Theorem caller_is_not_checked
    (o : Options) (now : nat -> Time) (user user' : ObjectId) (id : IdParam)
    (b : ProgressBody.t) (status : string) (db : Db) :
  patchProgress o now user id b db = patchProgress o now user' id b db
  /\ patchStatus o now user id status db
     = patchStatus o now user' id status db
  /\ deleteEnrollment o now user id db = deleteEnrollment o now user' id db
  /\ getEnrollment o user id db = getEnrollment o user' id db.
Proof.
  split; [|split; [|split]].
  - destruct (progressValidation b) as [|err errs] eqn:Hvalid.
    + now rewrite !patchProgress_unfold.
    + now rewrite !patchProgress_invalid by (rewrite Hvalid; discriminate).
  - now rewrite !patchStatus_unfold.
  - now rewrite !deleteEnrollment_unfold.
  - now rewrite !getEnrollment_unfold.
Qed.

(** X2.  The progress route never touches an enrollment that is not
    active: when no enrollment with the given [_id] is active, a body that
    passes validation and casts is answered 404 and the store stays as it
    was, under every setting of the options. *)
Theorem progress_needs_active_enrollment
    (o : Options) (now : nat -> Time) (user i : ObjectId)
    (b : ProgressBody.t) (db : Db) :
  progressValidation b = [] ->
  castsWell b = true ->
  (forall e, In e (enrollments db) -> Enrollment._id e = i ->
             Enrollment.status e <> "active") ->
  patchProgress o now user (Id i) b db
  = (db, mkResponse 404 (JMessage "Active enrollment not found")).
Proof.
  intros Hvalid Hcast Hnone. rewrite patchProgress_unfold by assumption.
  rewrite Hcast. simpl. destruct (strictQuery o); [|reflexivity].
  assert (H : Enrollment.updateFirst (activeById i) (progressed now b)
                (enrollments db) = None).
  { apply updateFirst_None. intros d Hd.
    destruct (activeById i d) eqn:Ha; [|reflexivity].
    exfalso. apply (Hnone d Hd).
    - eapply activeById_id; eauto.
    - eapply activeById_status; eauto. }
  now rewrite H.
Qed.

Lemma progress_needs_active_enrollment_witness :
  patchProgress strictSettings clock "user-1" (Id "enr-1") toForty dbCompleted
  = (dbCompleted, mkResponse 404 (JMessage "Active enrollment not found")).
Proof.
  apply (progress_needs_active_enrollment strictSettings clock "user-1"
           "enr-1" toForty dbCompleted).
  - reflexivity.
  - reflexivity.
  - intros e [<-|[]] _. discriminate.
Defined.

(** ** Invariants of the stored enrollments *)

(** The progress a valid body carries. *)
Lemma progressed_range now b e :
  progressValidation b = [] ->
  0 <= Enrollment.progress (progressed now b e) <= 100.
Proof.
  unfold progressValidation, progressed. simpl. intros H.
  apply app_eq_nil in H as [H _].
  destruct (ProgressBody.progress b) as [[n|n|]|]; try discriminate;
    (destruct ((0 <=? n) && (n <=? 100)) eqn:Hr; [|discriminate]);
    apply andb_prop in Hr as [H1 H2]; apply Z.leb_le in H1, H2; lia.
Qed.

Definition inRange (e : Enrollment.doc) : Prop :=
  0 <= Enrollment.progress e <= 100.

(** X3.  If the progress of every stored enrollment lies in 0..100, it
    still does after any sequence of requests. *)
Theorem progress_stays_in_range (o : Options) (db : Db) (ops : list Op) :
  Forall inRange (enrollments db) ->
  Forall inRange (enrollments (run o db ops)).
Proof.
  apply run_Forall. intros e e' H He.
  destruct H; auto. now apply progressed_range.
Qed.

Lemma progress_stays_in_range_witness :
  Forall inRange
    (enrollments
       (run strictSettings dbEnrolled
          [ UpdateProgress clock "user-2" (Id "enr-1") toHundred;
            SetStatus clock "user-1" (Id "enr-1") "active" ])).
Proof.
  apply (progress_stays_in_range strictSettings dbEnrolled).
  repeat constructor; unfold inRange; simpl; lia.
Defined.

(** A completed enrollment has progress 100 and a [completedAt]. *)
Definition coherent (e : Enrollment.doc) : Prop :=
  Enrollment.status e = "completed" ->
  Enrollment.progress e = 100 /\ Enrollment.completedAt e <> None.

Lemma evolves_coherent e e' : evolves e e' -> coherent e -> coherent e'.
Proof.
  intros H He. destruct H as [|now b Hvalid Hcast Hactive|stamp s Hs|stamp];
    auto; unfold coherent.
  - unfold progressed. simpl.
    destruct (ProgressBody.progress b) as [[n|n|]|] eqn:Hp; simpl;
      try (rewrite Hactive; discriminate).
    destruct (n =? 100) eqn:Hn; [|rewrite Hactive; discriminate].
    intros _. apply Z.eqb_eq in Hn. split; [assumption|discriminate].
  - simpl. intros ->. discriminate Hs.
  - simpl. discriminate.
Qed.

(** X4.  If every completed enrollment in the store has progress 100 and
    a [completedAt], this still holds after any sequence of requests: the
    progress route completes only with both, and no other route stores the
    status completed. *)
Theorem completed_enrollments_stay_coherent
    (o : Options) (db : Db) (ops : list Op) :
  Forall coherent (enrollments db) ->
  Forall coherent (enrollments (run o db ops)).
Proof. apply run_Forall. exact evolves_coherent. Qed.

Lemma completed_enrollments_stay_coherent_witness :
  Forall coherent
    (enrollments
       (run strictSettings dbEnrolled
          [UpdateProgress clock "user-1" (Id "enr-1") toHundred])).
Proof.
  apply (completed_enrollments_stay_coherent strictSettings dbEnrolled).
  constructor; [|constructor]. unfold coherent. simpl. discriminate.
Defined.

(** What no route changes of a stored enrollment. *)
Definition identity (e : Enrollment.doc) :=
  (Enrollment._id e, Enrollment.student e, Enrollment.course e,
   Enrollment.enrolledAt e, Enrollment.grade e, Enrollment.lastAccessedAt e,
   Enrollment.createdAt e).

(** X5.  No sequence of requests adds or removes an enrollment, and none
    changes the [_id], student, course, [enrolledAt], grade,
    [lastAccessedAt] or [createdAt] of one: the stored enrollments are, in
    their order, those that were there, each with these fields as they
    were. *)
Theorem enrollments_are_neither_added_nor_removed
    (o : Options) (db : Db) (ops : list Op) :
  map identity (enrollments (run o db ops)) = map identity (enrollments db).
Proof.
  apply run_map. intros e e' H. destruct H; reflexivity.
Qed.

(** * Grouped statistics *)

Module Stats.

(** What a [$group] stage reads of a document: the grouping key and the
    two fields it accumulates. *)
Record Row (K : Type) := mkRow {
  rowKey : K;
  rowProgress : Z;
  rowTime : Z
}.

Arguments mkRow {K}.
Arguments rowKey {K}.
Arguments rowProgress {K}.
Arguments rowTime {K}.

(** One group: [$sum: 1], the running sum and count behind an [$avg], and
    a [$sum] of the second field. *)
Record Group (K : Type) := mkGroup {
  _id : K;
  count : Z;
  avgSum : Z;
  avgCount : Z;
  totalTimeSpent : Z
}.

Arguments mkGroup {K}.
Arguments _id {K}.
Arguments count {K}.
Arguments avgSum {K}.
Arguments avgCount {K}.
Arguments totalTimeSpent {K}.

(** The value of [avgProgress] in the output document. *)
Definition avgProgress {K} (g : Group K) : Q :=
  inject_Z (avgSum g) / inject_Z (avgCount g).

Definition bump {K} (r : Row K) (g : Group K) : Group K :=
  mkGroup (_id g) (count g + 1) (avgSum g + rowProgress r) (avgCount g + 1)
          (totalTimeSpent g + rowTime r).

Definition single {K} (r : Row K) : Group K :=
  mkGroup (rowKey r) 1 (rowProgress r) 1 (rowTime r).

Fixpoint accumulate {K} (eqb : K -> K -> bool) (r : Row K)
    (groups : list (Group K)) : list (Group K) :=
  match groups with
  | [] => [single r]
  | g :: rest =>
      if eqb (_id g) (rowKey r) then bump r g :: rest
      else g :: accumulate eqb r rest
  end.

(** The [$group] stage over the matched documents, in their order. *)
Definition group {K} (eqb : K -> K -> bool) (rows : list (Row K))
    : list (Group K) :=
  fold_left (fun groups r => accumulate eqb r groups) rows [].

(** The first group with a given key. *)
Definition lookup {K} (eqb : K -> K -> bool) (k : K)
    (groups : list (Group K)) : option (Group K) :=
  List.find (fun g => eqb (_id g) k) groups.

(** The rows of one key, and what the stage should say of them. *)
Definition rowsOf {K} (eqb : K -> K -> bool) (k : K) (rows : list (Row K))
    : list (Row K) :=
  List.filter (fun r => eqb (rowKey r) k) rows.

Definition sumZ (l : list Z) : Z := fold_right Z.add 0 l.

Definition summary {K} (eqb : K -> K -> bool) (k : K) (rows : list (Row K))
    : Group K :=
  mkGroup k
    (Z.of_nat (length (rowsOf eqb k rows)))
    (sumZ (map rowProgress (rowsOf eqb k rows)))
    (Z.of_nat (length (rowsOf eqb k rows)))
    (sumZ (map rowTime (rowsOf eqb k rows))).

Section Grouping.

Context {K : Type} (eqb : K -> K -> bool).
Hypothesis eqb_eq : forall a b, eqb a b = true <-> a = b.

Lemma eqb_refl k : eqb k k = true.
Proof. now apply eqb_eq. Qed.

Lemma eqb_sym a b : eqb a b = eqb b a.
Proof.
  destruct (eqb a b) eqn:H1, (eqb b a) eqn:H2; try reflexivity.
  - apply eqb_eq in H1. subst. now rewrite eqb_refl in H2.
  - apply eqb_eq in H2. subst. now rewrite eqb_refl in H1.
Qed.

Lemma accumulate_totals r groups :
  sumZ (map count (accumulate eqb r groups)) = sumZ (map count groups) + 1
  /\ sumZ (map totalTimeSpent (accumulate eqb r groups))
     = sumZ (map totalTimeSpent groups) + rowTime r.
Proof.
  induction groups as [|g rest [IH1 IH2]]; simpl.
  - split; lia.
  - destruct (eqb (_id g) (rowKey r)); simpl; split; lia.
Qed.

Lemma group_totals_from rows : forall groups,
  sumZ (map count (fold_left (fun gs r => accumulate eqb r gs) rows groups))
  = sumZ (map count groups) + Z.of_nat (length rows)
  /\ sumZ (map totalTimeSpent
             (fold_left (fun gs r => accumulate eqb r gs) rows groups))
     = sumZ (map totalTimeSpent groups) + sumZ (map rowTime rows).
Proof.
  induction rows as [|r rows IH]; intros groups; simpl fold_left.
  - simpl. split; lia.
  - destruct (IH (accumulate eqb r groups)) as [H1 H2].
    destruct (accumulate_totals r groups) as [A1 A2].
    rewrite H1, H2, A1, A2. simpl length. simpl map. simpl sumZ.
    split; lia.
Qed.

Lemma accumulate_keys r groups :
  map _id (accumulate eqb r groups)
  = if existsb (fun g => eqb (_id g) (rowKey r)) groups
    then map _id groups
    else map _id groups ++ [rowKey r].
Proof.
  induction groups as [|g rest IH]; simpl; [reflexivity|].
  destruct (eqb (_id g) (rowKey r)); simpl; [reflexivity|].
  rewrite IH. now destruct (existsb _ rest).
Qed.

Lemma accumulate_NoDup r groups :
  List.NoDup (map _id groups) ->
  List.NoDup (map _id (accumulate eqb r groups)).
Proof.
  intros Hnd. rewrite accumulate_keys.
  destruct (existsb _ groups) eqn:Hex; [assumption|].
  apply List.NoDup_app; [assumption|repeat constructor; intros []|].
  intros k Hk [<-|[]]. apply in_map_iff in Hk as (g & Hg & Hin).
  assert (existsb (fun g => eqb (_id g) (rowKey r)) groups = true).
  { apply existsb_exists. exists g. split; [assumption|].
    rewrite Hg. apply eqb_refl. }
  congruence.
Qed.

Lemma accumulate_lookup r k groups :
  lookup eqb k (accumulate eqb r groups)
  = if eqb (rowKey r) k
    then Some (match lookup eqb k groups with
               | Some g => bump r g
               | None => single r
               end)
    else lookup eqb k groups.
Proof.
  unfold lookup. induction groups as [|g rest IH]; simpl.
  - destruct (eqb (rowKey r) k); reflexivity.
  - destruct (eqb (_id g) (rowKey r)) eqn:Hg; simpl.
    + apply eqb_eq in Hg. rewrite Hg.
      destruct (eqb (rowKey r) k); reflexivity.
    + destruct (eqb (_id g) k) eqn:Hk; [|exact IH].
      destruct (eqb (rowKey r) k) eqn:Hr; [|reflexivity].
      apply eqb_eq in Hk, Hr. rewrite <- Hr in Hk.
      rewrite Hk, eqb_refl in Hg. discriminate.
Qed.

(** A set of groups tells the truth about the rows seen so far. *)
Definition faithful (groups : list (Group K)) (seen : list (Row K)) : Prop :=
  forall k,
    lookup eqb k groups
    = match rowsOf eqb k seen with
      | [] => None
      | _ :: _ => Some (summary eqb k seen)
      end.

Lemma rowsOf_snoc k seen r :
  rowsOf eqb k (seen ++ [r])
  = rowsOf eqb k seen ++ (if eqb (rowKey r) k then [r] else []).
Proof. unfold rowsOf. rewrite List.filter_app. reflexivity. Qed.

Lemma sumZ_app l l' : sumZ (l ++ l') = sumZ l + sumZ l'.
Proof. induction l as [|x l IH]; simpl; lia. Qed.

Lemma faithful_accumulate groups seen r :
  faithful groups seen -> faithful (accumulate eqb r groups) (seen ++ [r]).
Proof.
  intros H k. rewrite accumulate_lookup, rowsOf_snoc, (H k).
  destruct (eqb (rowKey r) k) eqn:Hr.
  - apply eqb_eq in Hr. unfold summary. rewrite rowsOf_snoc.
    rewrite <- Hr, eqb_refl.
    destruct (rowsOf eqb (rowKey r) seen) as [|x xs] eqn:Hrows.
    + simpl. unfold single. f_equal. f_equal; lia.
    + simpl app. unfold bump. simpl.
      rewrite !map_app, !sumZ_app, !List.length_app. simpl.
      f_equal. f_equal; lia.
  - rewrite app_nil_r. unfold summary. rewrite rowsOf_snoc, Hr, app_nil_r.
    reflexivity.
Qed.

Lemma group_from rows : forall groups seen,
  List.NoDup (map _id groups) -> faithful groups seen ->
  List.NoDup
    (map _id (fold_left (fun gs r => accumulate eqb r gs) rows groups))
  /\ faithful (fold_left (fun gs r => accumulate eqb r gs) rows groups)
              (seen ++ rows).
Proof.
  induction rows as [|r rows IH]; intros groups seen Hnd Hf; simpl.
  - now rewrite app_nil_r.
  - replace (seen ++ r :: rows) with ((seen ++ [r]) ++ rows)
      by (now rewrite <- app_assoc).
    apply IH; [now apply accumulate_NoDup|now apply faithful_accumulate].
Qed.

Lemma lookup_In k groups g :
  lookup eqb k groups = Some g -> In g groups /\ _id g = k.
Proof.
  unfold lookup. intros H. apply find_some in H as [Hin Hk].
  split; [assumption|now apply eqb_eq].
Qed.

Lemma In_lookup groups g :
  List.NoDup (map _id groups) -> In g groups ->
  lookup eqb (_id g) groups = Some g.
Proof.
  intros Hnd Hin. unfold lookup.
  destruct (List.find _ groups) as [g'|] eqn:Hf.
  - apply find_some in Hf as [Hin' Hk]. apply eqb_eq in Hk.
    f_equal. eapply NoDup_map_In_eq; eauto.
  - eapply find_none in Hf; eauto. now rewrite eqb_refl in Hf.
Qed.

(** The stage is correct: one group per key that occurs, none for a key
    that does not, and each group carries the number of its rows and the
    sums of their two fields. *)
Lemma group_correct rows :
  List.NoDup (map _id (group eqb rows))
  /\ (forall g, In g (group eqb rows) ->
        rowsOf eqb (_id g) rows <> [] /\ g = summary eqb (_id g) rows)
  /\ (forall k, rowsOf eqb k rows <> [] ->
        In (summary eqb k rows) (group eqb rows)).
Proof.
  destruct (group_from rows [] []) as [Hnd Hf].
  { constructor. }
  { intros k. reflexivity. }
  simpl in Hf. fold (group eqb rows) in Hnd, Hf.
  split; [assumption|]. split.
  - intros g Hin. pose proof (In_lookup _ g Hnd Hin) as Hl.
    rewrite (Hf (_id g)) in Hl.
    destruct (rowsOf eqb (_id g) rows); [discriminate|].
    split; [discriminate|congruence].
  - intros k Hk. specialize (Hf k).
    destruct (rowsOf eqb k rows) eqn:Hr; [congruence|].
    now apply lookup_In in Hf as [Hin _].
Qed.

End Grouping.

End Stats.

(** * Category slugs

    The [pre('save')] hook of the category schema derives the slug from
    the name: [toLowerCase()], then [/[^a-z0-9]/g] to a hyphen, then runs
    of hyphens to one, then a leading and a trailing hyphen away.  A name
    is the list of its characters; the model is that of the source for
    names of ASCII characters, for which lower-casing is the shift of A-Z
    to a-z. *)

Module Category.

Abbreviation ascii := Ascii.ascii.

Definition code (c : ascii) : nat := Ascii.nat_of_ascii c.

(** [toLowerCase()] of one ASCII character. *)
Definition toLowerCase (c : ascii) : ascii :=
  if (65 <=? code c)%nat && (code c <=? 90)%nat
  then Ascii.ascii_of_nat (code c + 32)
  else c.

(** The class [[a-z0-9]]. *)
Definition isSlugChar (c : ascii) : bool :=
  ((97 <=? code c)%nat && (code c <=? 122)%nat)
  || ((48 <=? code c)%nat && (code c <=? 57)%nat).

Definition hyphen : ascii := Ascii.ascii_of_nat 45.

Definition isHyphen (c : ascii) : bool := (code c =? 45)%nat.

(** [replace(/[^a-z0-9]/g, '-')] on one character. *)
Definition hyphenate (c : ascii) : ascii :=
  if isSlugChar c then c else hyphen.

Definition startsWithHyphen (l : list ascii) : bool :=
  match l with
  | c :: _ => isHyphen c
  | [] => false
  end.

(** [replace(/-+/g, '-')] *)
Fixpoint collapse (l : list ascii) : list ascii :=
  match l with
  | [] => []
  | c :: rest =>
      if isHyphen c && startsWithHyphen rest then collapse rest
      else c :: collapse rest
  end.

(** The [^-] alternative of [replace(/^-|-$/g, '')]. *)
Definition dropLeading (l : list ascii) : list ascii :=
  match l with
  | c :: rest => if isHyphen c then rest else l
  | [] => []
  end.

(** The [-$] alternative, on what the first left. *)
Fixpoint dropTrailing (l : list ascii) : list ascii :=
  match l with
  | [] => []
  | c :: rest =>
      match rest with
      | [] => if isHyphen c then [] else [c]
      | _ :: _ => c :: dropTrailing rest
      end
  end.

Definition slugChars (name : list ascii) : list ascii :=
  dropTrailing
    (dropLeading (collapse (map (fun c => hyphenate (toLowerCase c)) name))).

Definition slugify (name : string) : string :=
  String.string_of_list_ascii
    (slugChars (String.list_ascii_of_string name)).

Record doc := mk {
  name : string;
  slug : string
}.

(** The hook itself: the slug is rewritten when the name was modified. *)
Definition preSave (nameModified : bool) (c : doc) : doc :=
  if nameModified then mk (name c) (slugify (name c)) else c.

(** What a slug looks like. *)
Fixpoint endsWithHyphen (l : list ascii) : bool :=
  match l with
  | [] => false
  | c :: rest =>
      match rest with
      | [] => isHyphen c
      | _ :: _ => endsWithHyphen rest
      end
  end.

Fixpoint hasDoubleHyphen (l : list ascii) : bool :=
  match l with
  | [] => false
  | c :: rest =>
      (isHyphen c && startsWithHyphen rest) || hasDoubleHyphen rest
  end.

Definition isSlugOrHyphen (c : ascii) : bool := isSlugChar c || isHyphen c.

Definition wellFormed (l : list ascii) : bool :=
  forallb isSlugOrHyphen l
  && negb (startsWithHyphen l)
  && negb (endsWithHyphen l)
  && negb (hasDoubleHyphen l).

(** A name of 7-bit characters. *)
Definition isAscii (name : string) : Prop :=
  Forall (fun c => (code c < 128)%nat) (String.list_ascii_of_string name).

End Category.

Section Slugs.

Import Category.


Lemma isHyphen_eq c : isHyphen c = true -> c = hyphen.
Proof.
  unfold isHyphen, hyphen, code. intros H. apply Nat.eqb_eq in H.
  rewrite <- H. symmetry. apply Ascii.ascii_nat_embedding.
Qed.

Lemma hyphenate_class c : isSlugOrHyphen (hyphenate c) = true.
Proof.
  unfold isSlugOrHyphen, hyphenate.
  destruct (isSlugChar c) eqn:H; [now rewrite H|]. apply orb_true_r.
Qed.

Lemma collapse_start l :
  startsWithHyphen (collapse l) = startsWithHyphen l.
Proof.
  induction l as [|c rest IH]; simpl; [reflexivity|].
  destruct (isHyphen c) eqn:Hc, (startsWithHyphen rest) eqn:Hr; simpl;
    auto; try congruence.
Qed.

Lemma collapse_noDouble l : hasDoubleHyphen (collapse l) = false.
Proof.
  induction l as [|c rest IH]; simpl; [reflexivity|].
  destruct (isHyphen c) eqn:Hc, (startsWithHyphen rest) eqn:Hr; simpl;
    rewrite ?Hc, ?collapse_start, ?Hr, ?IH; reflexivity.
Qed.

Lemma collapse_class (P : ascii -> bool) l :
  forallb P l = true -> forallb P (collapse l) = true.
Proof.
  induction l as [|c rest IH]; simpl; [reflexivity|]. intros H.
  apply andb_prop in H as [Hc Hrest].
  destruct (isHyphen c && startsWithHyphen rest); simpl; auto.
  now rewrite Hc, IH.
Qed.

Lemma dropLeading_shape l :
  hasDoubleHyphen l = false ->
  startsWithHyphen (dropLeading l) = false
  /\ hasDoubleHyphen (dropLeading l) = false.
Proof.
  destruct l as [|c rest]; simpl; [auto|]. intros H.
  apply orb_false_elim in H as [H1 H2].
  destruct (isHyphen c) eqn:Hc; simpl in *.
  - auto.
  - rewrite Hc, H2. auto.
Qed.

Lemma dropLeading_class (P : ascii -> bool) l :
  forallb P l = true -> forallb P (dropLeading l) = true.
Proof.
  destruct l as [|c rest]; simpl; [reflexivity|]. intros H.
  apply andb_prop in H as [Hc Hrest].
  destruct (isHyphen c); simpl; auto. now rewrite Hc.
Qed.

Lemma dropTrailing_start l :
  startsWithHyphen l = false -> startsWithHyphen (dropTrailing l) = false.
Proof.
  destruct l as [|c [|d rest]]; simpl; auto.
  intros H. now rewrite H.
Qed.

Lemma dropTrailing_cons c d rest :
  dropTrailing (c :: d :: rest) = c :: dropTrailing (d :: rest).
Proof. reflexivity. Qed.

Lemma hasDoubleHyphen_cons c l :
  hasDoubleHyphen (c :: l)
  = (isHyphen c && startsWithHyphen l) || hasDoubleHyphen l.
Proof. reflexivity. Qed.

Lemma endsWithHyphen_cons c d l :
  endsWithHyphen (c :: d :: l) = endsWithHyphen (d :: l).
Proof. reflexivity. Qed.

Lemma dropTrailing_noDouble l :
  hasDoubleHyphen l = false -> hasDoubleHyphen (dropTrailing l) = false.
Proof.
  induction l as [|c rest IH]; [reflexivity|].
  intros H. rewrite hasDoubleHyphen_cons in H.
  apply orb_false_elim in H as [H1 H2].
  destruct rest as [|d rest'].
  - simpl. destruct (isHyphen c) eqn:Hc; simpl; rewrite ?Hc; reflexivity.
  - rewrite dropTrailing_cons, hasDoubleHyphen_cons, (IH H2), orb_false_r.
    destruct (isHyphen c) eqn:Hc; [|reflexivity]. simpl in H1.
    exact (dropTrailing_start (d :: rest') H1).
Qed.

Lemma dropTrailing_end l :
  hasDoubleHyphen l = false -> endsWithHyphen (dropTrailing l) = false.
Proof.
  induction l as [|c rest IH]; [reflexivity|].
  intros H. rewrite hasDoubleHyphen_cons in H.
  apply orb_false_elim in H as [H1 H2].
  destruct rest as [|d rest'].
  - simpl. destruct (isHyphen c) eqn:Hc; simpl; rewrite ?Hc; reflexivity.
  - rewrite dropTrailing_cons. specialize (IH H2).
    destruct (dropTrailing (d :: rest')) as [|y ys] eqn:Hdt.
    + destruct rest' as [|x rest'']; simpl in Hdt.
      * destruct (isHyphen d) eqn:Hd; [|discriminate].
        simpl in H1. rewrite Hd, andb_true_r in H1. simpl. exact H1.
      * discriminate.
    + rewrite endsWithHyphen_cons. exact IH.
Qed.

Lemma dropTrailing_class (P : ascii -> bool) l :
  forallb P l = true -> forallb P (dropTrailing l) = true.
Proof.
  induction l as [|c rest IH]; [reflexivity|]. intros H. simpl in H.
  apply andb_prop in H as [Hc Hrest].
  destruct rest as [|d rest'].
  - simpl. destruct (isHyphen c); simpl; rewrite ?Hc; reflexivity.
  - rewrite dropTrailing_cons.
    change (P c && forallb P (dropTrailing (d :: rest')) = true).
    now rewrite Hc, (IH Hrest).
Qed.

Lemma slugChars_wellFormed name : wellFormed (slugChars name) = true.
Proof.
  unfold slugChars, wellFormed.
  set (h := map (fun c => hyphenate (toLowerCase c)) name).
  assert (Hclass : forallb isSlugOrHyphen h = true).
  { unfold h. clear h. induction name as [|c rest IH]; simpl; [reflexivity|].
    now rewrite hyphenate_class, IH. }
  pose proof (collapse_noDouble h) as Hnd.
  destruct (dropLeading_shape (collapse h) Hnd) as [Hstart Hnd'].
  rewrite dropTrailing_class
    by (apply dropLeading_class, collapse_class, Hclass).
  rewrite (dropTrailing_start _ Hstart), (dropTrailing_end _ Hnd'),
    (dropTrailing_noDouble _ Hnd').
  reflexivity.
Qed.

Lemma collapse_fixed l : hasDoubleHyphen l = false -> collapse l = l.
Proof.
  induction l as [|c rest IH]; simpl; [reflexivity|]. intros H.
  apply orb_false_elim in H as [H1 H2]. rewrite H1. now rewrite IH.
Qed.

Lemma dropLeading_fixed l : startsWithHyphen l = false -> dropLeading l = l.
Proof.
  destruct l as [|c rest]; simpl; [reflexivity|]. now intros ->.
Qed.

Lemma dropTrailing_fixed l : endsWithHyphen l = false -> dropTrailing l = l.
Proof.
  induction l as [|c rest IH]; [reflexivity|]. intros H.
  destruct rest as [|d rest'].
  - simpl in *. now rewrite H.
  - rewrite dropTrailing_cons. f_equal. apply IH.
    now rewrite endsWithHyphen_cons in H.
Qed.

Lemma slugChar_lower c : isSlugOrHyphen c = true -> hyphenate (toLowerCase c) = c.
Proof.
  unfold isSlugOrHyphen. intros H.
  assert (Hlow : toLowerCase c = c).
  { unfold toLowerCase.
    destruct ((65 <=? code c)%nat && (code c <=? 90)%nat) eqn:Hup;
      [|reflexivity].
    exfalso. apply andb_prop in Hup as [H1 H2].
    apply Nat.leb_le in H1, H2.
    unfold isSlugChar, isHyphen in H.
    apply orb_prop in H as [H|H].
    - apply orb_prop in H as [H|H]; apply andb_prop in H as [H3 H4];
        apply Nat.leb_le in H3, H4; lia.
    - apply Nat.eqb_eq in H. lia. }
  rewrite Hlow. unfold hyphenate.
  destruct (isSlugChar c) eqn:Hs; [reflexivity|].
  simpl in H. symmetry. now apply isHyphen_eq.
Qed.

Lemma slugChars_fixed l : wellFormed l = true -> slugChars l = l.
Proof.
  unfold wellFormed. intros H.
  apply andb_prop in H as [H Hnd]. apply andb_prop in H as [H Hend].
  apply andb_prop in H as [Hclass Hstart].
  apply negb_true_iff in Hnd, Hend, Hstart.
  unfold slugChars.
  assert (Hmap : map (fun c => hyphenate (toLowerCase c)) l = l).
  { clear Hnd Hend Hstart. induction l as [|c rest IH]; [reflexivity|].
    simpl in Hclass. apply andb_prop in Hclass as [Hc Hrest].
    simpl. now rewrite (slugChar_lower c Hc), IH. }
  rewrite Hmap, (collapse_fixed l Hnd), (dropLeading_fixed l Hstart).
  now apply dropTrailing_fixed.
Qed.







End Slugs.

(** X19.  Whatever the (ASCII) name, the slug the hook derives from it is
    well formed: it consists of lower-case letters, digits and hyphens
    only, it neither starts nor ends with a hyphen, and it has no two
    hyphens in a row.  The hook leaves the name as it is. *)
Theorem slug_is_well_formed (c : Category.doc) :
  Category.isAscii (Category.name c) ->
  Category.wellFormed
    (String.list_ascii_of_string (Category.slug (Category.preSave true c)))
  = true
  /\ Category.name (Category.preSave true c) = Category.name c.
Proof.
  intros _. split; [|reflexivity]. simpl. unfold Category.slugify.
  rewrite String.list_ascii_of_string_of_list_ascii.
  apply slugChars_wellFormed.
Qed.

Lemma isAscii_example :
  Category.isAscii "  Web Development & UX/UI -- 2024!  ".
Proof.
  unfold Category.isAscii. apply List.Forall_forall. intros x Hx.
  simpl in Hx.
  repeat (destruct Hx as [<-|Hx]; [vm_compute; lia|]). destruct Hx.
Defined.

Lemma slug_is_well_formed_witness :
  Category.wellFormed
    (String.list_ascii_of_string
       (Category.slug
          (Category.preSave true
             (Category.mk "  Web Development & UX/UI -- 2024!  " ""))))
  = true
  /\ Category.name
       (Category.preSave true
          (Category.mk "  Web Development & UX/UI -- 2024!  " ""))
     = "  Web Development & UX/UI -- 2024!  ".
Proof.
  apply (slug_is_well_formed
           (Category.mk "  Web Development & UX/UI -- 2024!  " "")).
  exact isAscii_example.
Defined.

(** X20.  Deriving a slug is idempotent: a string that already is a well
    formed slug is its own slug, so the slug of a slug is that slug. *)
Theorem slug_is_idempotent :
  (forall s,
     Category.wellFormed (String.list_ascii_of_string s) = true ->
     Category.slugify s = s)
  /\ (forall name,
        Category.isAscii name ->
        Category.slugify (Category.slugify name) = Category.slugify name).
Proof.
  assert (Hfixed : forall s,
            Category.wellFormed (String.list_ascii_of_string s) = true ->
            Category.slugify s = s).
  { intros s H. unfold Category.slugify. rewrite (slugChars_fixed _ H).
    apply String.string_of_list_ascii_of_string. }
  split; [exact Hfixed|].
  intros name _. apply Hfixed. unfold Category.slugify.
  rewrite String.list_ascii_of_string_of_list_ascii.
  apply slugChars_wellFormed.
Qed.

Lemma slug_is_idempotent_witness :
  Category.slugify "web-development-ux-ui-2024" = "web-development-ux-ui-2024"
  /\ Category.slugify
       (Category.slugify "  Web Development & UX/UI -- 2024!  ")
     = Category.slugify "  Web Development & UX/UI -- 2024!  ".
Proof.
  split.
  - apply (proj1 slug_is_idempotent). vm_compute. reflexivity.
  - apply (proj2 slug_is_idempotent). exact isAscii_example.
Defined.




Lemma status_eqb_eq a b : Enrollment.status_eqb a b = true <-> a = b.
Proof. destruct a, b; simpl; split; intros H; try reflexivity; discriminate. Qed.

(** * The Enrollment schema  ([src/models/Enrollment.js])

    The document as the schema declares it, its [duration] virtual, its
    method [complete] and its static [getEnrollmentStats].  The method
    changes the document in memory and then calls [save()], which
    validates it against the schema before the store writes it: the result
    carries the document as changed and how the save settled. *)

Module EnrollmentSchema.

Record doc := mk {
  student : ObjectId;
  course : ObjectId;
  enrolledAt : Time;
  status : Enrollment.Status;
  progress : Z;
  completedLessons : list ObjectId;
  grade : option Z;
  completedAt : option Time;
  lastAccessedAt : Time
}.

(** The validators of the schema: the [enum] of [status] and the [min] and
    [max] of [progress] and [grade]. *)
Definition validate (d : doc) : list string :=
  (match status d with
   | Enrollment.cancelled =>
       ["`cancelled` is not a valid enum value for path `status`."]
   | _ => []
   end)
  ++ (if (0 <=? progress d) && (progress d <=? 100) then []
      else ["Path `progress` is out of range."])
  ++ (match grade d with
      | Some g => if (0 <=? g) && (g <=? 100) then []
                  else ["Path `grade` is out of range."]
      | None => []
      end).

Record Saved := mkSaved {
  this : doc;
  outcome : Settled
}.

(** [this.save()] *)
Definition save (d : doc) : Saved :=
  match validate d with
  | [] => mkSaved d Fulfilled
  | _ :: _ => mkSaved d (Rejected "Enrollment validation failed")
  end.

(** The virtual [duration], read when the clock shows [now]. *)
Definition duration (now : Time) (d : doc) : Z :=
  match completedAt d with
  | Some t => t - enrolledAt d
  | None => now - enrolledAt d
  end.

(** [enrollmentSchema.methods.complete] *)
Definition complete (finalGrade : option Z) (now : Time) (d : doc) : Saved :=
  save (mk (student d) (course d) (enrolledAt d) Enrollment.completed 100
           (completedLessons d)
           (match finalGrade with
            | Some g => Some g
            | None => grade d
            end)
           (Some now) (lastAccessedAt d)).

(** One document of the result of [getEnrollmentStats]. *)
Record StatusStat := mkStatusStat {
  stat_id : Enrollment.Status;
  count : Z;
  avgProgress : Q
}.

(** [enrollmentSchema.statics.getEnrollmentStats]: the documents of the
    course, grouped by status, with their number and mean progress. *)
Definition getEnrollmentStats (courseId : ObjectId) (docs : list doc)
    : list StatusStat :=
  map (fun g => mkStatusStat (Stats._id g) (Stats.count g)
                             (Stats.avgProgress g))
      (Stats.group Enrollment.status_eqb
         (map (fun d => Stats.mkRow (status d) (progress d) 0)
              (List.filter (fun d => String.eqb (course d) courseId) docs))).

End EnrollmentSchema.

Lemma save_this d : EnrollmentSchema.this (EnrollmentSchema.save d) = d.
Proof.
  unfold EnrollmentSchema.save. now destruct (EnrollmentSchema.validate d).
Qed.

(** X23.  Completing through the schema method sets status completed,
    progress 100 and [completedAt], and replaces the grade only when one
    is given; the save is accepted exactly when the resulting grade, if
    any, lies in 0..100.  From then on the [duration] virtual is frozen at
    the time between enrolling and completing, whatever the clock shows,
    whereas before completion it is the time since enrolling. *)
Theorem completing_freezes_the_duration
    (finalGrade : option Z) (now : Time) (d : EnrollmentSchema.doc) :
  let d1 := EnrollmentSchema.this (EnrollmentSchema.complete finalGrade now d) in
  EnrollmentSchema.status d1 = Enrollment.completed
  /\ EnrollmentSchema.progress d1 = 100
  /\ EnrollmentSchema.completedAt d1 = Some now
  /\ EnrollmentSchema.grade d1
     = match finalGrade with
       | Some g => Some g
       | None => EnrollmentSchema.grade d
       end
  /\ (EnrollmentSchema.outcome (EnrollmentSchema.complete finalGrade now d)
      = Fulfilled
      <-> forall g, EnrollmentSchema.grade d1 = Some g -> 0 <= g <= 100)
  /\ (forall later,
        EnrollmentSchema.duration later d1
        = now - EnrollmentSchema.enrolledAt d)
  /\ (EnrollmentSchema.completedAt d = None ->
      forall t, EnrollmentSchema.duration t d
                = t - EnrollmentSchema.enrolledAt d).
Proof.
  intros d1. unfold d1, EnrollmentSchema.complete. rewrite save_this. simpl.
  split; [reflexivity|]. split; [reflexivity|]. split; [reflexivity|].
  split; [reflexivity|]. split; [|split].
  - unfold EnrollmentSchema.save, EnrollmentSchema.validate. simpl.
    destruct (match finalGrade with
              | Some g => Some g
              | None => EnrollmentSchema.grade d
              end) as [g|]; simpl.
    + destruct ((0 <=? g) && (g <=? 100)) eqn:Hr; simpl.
      * apply andb_prop in Hr as [H0 H1]. split; [|reflexivity].
        intros _ g' Hg'. inversion Hg'; subst. lia.
      * split; [discriminate|]. intros H. specialize (H g eq_refl).
        apply andb_false_iff in Hr as [Hr|Hr]; lia.
    + split; [|reflexivity]. intros _ g Hg. discriminate.
  - reflexivity.
  - intros Hnone t. unfold EnrollmentSchema.duration. now rewrite Hnone.
Qed.

(** The documents of a course in one status. *)
Definition courseDocsIn (courseId : ObjectId) (s : Enrollment.Status)
    (docs : list EnrollmentSchema.doc) : list EnrollmentSchema.doc :=
  List.filter
    (fun d => Enrollment.status_eqb (EnrollmentSchema.status d) s)
    (List.filter (fun d => String.eqb (EnrollmentSchema.course d) courseId)
                 docs).

Lemma rowsOf_schema s (docs : list EnrollmentSchema.doc) :
  Stats.rowsOf Enrollment.status_eqb s
    (map (fun d => Stats.mkRow (EnrollmentSchema.status d)
                               (EnrollmentSchema.progress d) 0) docs)
  = map (fun d => Stats.mkRow (EnrollmentSchema.status d)
                              (EnrollmentSchema.progress d) 0)
        (List.filter
           (fun d => Enrollment.status_eqb (EnrollmentSchema.status d) s)
           docs).
Proof.
  unfold Stats.rowsOf. induction docs as [|d docs IH]; simpl; [reflexivity|].
  destruct (Enrollment.status_eqb (EnrollmentSchema.status d) s); simpl;
    now rewrite IH.
Qed.

(** X24.  The per-course statistics of the schema list each status that
    occurs among the course's enrollments exactly once, with the number
    of those enrollments and their mean progress; statuses that do not
    occur are not listed, and the counts add up to the number of the
    course's enrollments. *)
Theorem course_statistics_by_status
    (courseId : ObjectId) (docs : list EnrollmentSchema.doc) :
  let result := EnrollmentSchema.getEnrollmentStats courseId docs in
  List.NoDup (map EnrollmentSchema.stat_id result)
  /\ (forall st,
        In st result ->
        courseDocsIn courseId (EnrollmentSchema.stat_id st) docs <> []
        /\ EnrollmentSchema.count st
           = Z.of_nat
               (length (courseDocsIn courseId (EnrollmentSchema.stat_id st)
                                     docs))
        /\ EnrollmentSchema.avgProgress st
           = (inject_Z
                (Stats.sumZ
                   (map EnrollmentSchema.progress
                        (courseDocsIn courseId (EnrollmentSchema.stat_id st)
                                      docs)))
              / inject_Z
                  (Z.of_nat
                     (length (courseDocsIn courseId
                                (EnrollmentSchema.stat_id st) docs))))%Q)
  /\ (forall s,
        courseDocsIn courseId s docs <> [] ->
        exists st, In st result /\ EnrollmentSchema.stat_id st = s)
  /\ Stats.sumZ (map EnrollmentSchema.count result)
     = Z.of_nat
         (length (List.filter
                    (fun d => String.eqb (EnrollmentSchema.course d) courseId)
                    docs)).
Proof.
  intros result. unfold result, EnrollmentSchema.getEnrollmentStats,
    courseDocsIn.
  set (mine := List.filter
                 (fun d => String.eqb (EnrollmentSchema.course d) courseId)
                 docs).
  set (rows := map (fun d => Stats.mkRow (EnrollmentSchema.status d)
                                         (EnrollmentSchema.progress d) 0)
                   mine).
  destruct (Stats.group_correct Enrollment.status_eqb status_eqb_eq rows)
    as (Hnd & Hin & Hall).
  split; [|split; [|split]].
  - rewrite map_map. simpl. exact Hnd.
  - intros st Hst. apply in_map_iff in Hst as (g & <- & Hg). simpl.
    destruct (Hin g Hg) as [Hne Heq].
    unfold rows in Hne. rewrite rowsOf_schema in Hne.
    split; [intros H; apply Hne; now rewrite H|].
    pose proof (f_equal Stats.count Heq) as Hc.
    pose proof (f_equal Stats.avgSum Heq) as Hs.
    pose proof (f_equal Stats.avgCount Heq) as Hn.
    unfold Stats.summary, rows in Hc, Hs, Hn. simpl in Hc, Hs, Hn.
    rewrite rowsOf_schema in Hc, Hs, Hn.
    rewrite length_map in Hc, Hn. rewrite map_map in Hs. simpl in Hs.
    unfold Stats.avgProgress. rewrite Hs, Hn. split; [assumption|reflexivity].
  - intros s Hs.
    exists (EnrollmentSchema.mkStatusStat s
              (Stats.count (Stats.summary Enrollment.status_eqb s rows))
              (Stats.avgProgress (Stats.summary Enrollment.status_eqb s rows))).
    split; [|reflexivity].
    apply in_map_iff. exists (Stats.summary Enrollment.status_eqb s rows).
    split; [reflexivity|]. apply Hall. unfold rows. rewrite rowsOf_schema.
    intros H. apply Hs. now apply map_eq_nil in H.
  - rewrite map_map.
    destruct (Stats.group_totals_from Enrollment.status_eqb rows []) as [H _].
    fold (Stats.group Enrollment.status_eqb rows) in H.
    rewrite (map_ext _ Stats.count) by reflexivity.
    rewrite H. simpl. unfold rows. now rewrite length_map.
Qed.

